(** * A shallow embedding of the animation core of VUMeter (src/src/vumeter.js)

    JavaScript numbers are modelled as exact rationals [Q]; [Math.min],
    [Math.max] and [Math.abs] are written out on [Q].  [Math.exp] is left as
    a parameter of the frame function ([Math_exp]), so every statement about
    a frame holds for whatever exponential the host provides.  [Date.now()]
    and the [requestAnimationFrame] timestamp are explicit arguments.

    The instance ([this]) is a record [Meter]; [this._options] is a record
    [Options] held inside it, and each mutating method returns the new
    instance together with the list of observable effects it performed
    (scale rebuilds and the clip callbacks). *)

From Stdlib Require Import ZArith QArith Qabs Qround Lqa Lia List Bool String Ascii.
Import ListNotations.

Open Scope Q_scope.

(** ** JavaScript number helpers *)

Definition Qlt_bool (a b : Q) : bool := negb (Qle_bool b a).

(** [Math.min(a, b)] and [Math.max(a, b)] on (non-NaN) numbers. *)
Definition js_min (a b : Q) : Q := if Qle_bool a b then a else b.
Definition js_max (a b : Q) : Q := if Qle_bool b a then a else b.

(** [Math.min(...xs)] / [Math.max(...xs)] on a non-empty array. *)
Definition list_min (x : Q) (xs : list Q) : Q := fold_left js_min xs x.
Definition list_max (x : Q) (xs : list Q) : Q := fold_left js_max xs x.

(** ** Options (the core keys of [VUMeter.DEFAULTS]) *)

Record Options := mkOptions {
  dbMin : Q;
  dbMax : Q;
  noiseFloor : Q;
  ballistics : bool;
  attackTime : Q;
  releaseTime : Q;
  label : string;
  brand : string;
  onClip : bool;          (* typeof onClip === 'function' *)
  onClipRelease : bool;   (* typeof onClipRelease === 'function' *)
  clipThreshold : Q;
  autoRange : bool;
  autoRangeWindow : Q;
  autoRangeMargin : Q;
  showPeak : bool;
  peakAttackTime : Q;
  peakHoldTime : Q;
  peakDecayTime : Q;
  scalePreset : option string
}.

Definition DEFAULTS : Options := {|
  dbMin := -20; dbMax := 3; noiseFloor := -20;
  ballistics := true; attackTime := 300; releaseTime := 300;
  label := "VU"; brand := "MODEL 300";
  onClip := false; onClipRelease := false;
  clipThreshold := 0;
  autoRange := false; autoRangeWindow := 30; autoRangeMargin := 2;
  showPeak := false; peakAttackTime := 50; peakHoldTime := 2000;
  peakDecayTime := 1500; scalePreset := None |}.

(** A partial options object as passed to the constructor or to
    [setOptions]: [None] is a key that is absent. *)
Record PartialOptions := mkPartial {
  p_dbMin : option Q;
  p_dbMax : option Q;
  p_noiseFloor : option Q;
  p_ballistics : option bool;
  p_attackTime : option Q;
  p_releaseTime : option Q;
  p_label : option string;
  p_brand : option string;
  p_onClip : option bool;
  p_onClipRelease : option bool;
  p_clipThreshold : option Q;
  p_autoRange : option bool;
  p_autoRangeWindow : option Q;
  p_autoRangeMargin : option Q;
  p_showPeak : option bool;
  p_peakAttackTime : option Q;
  p_peakHoldTime : option Q;
  p_peakDecayTime : option Q;
  p_scalePreset : option (option string)
}.

Definition no_options : PartialOptions :=
  mkPartial None None None None None None None None None None None None None
    None None None None None None.

Definition is_present {A} (p : option A) : bool :=
  match p with Some _ => true | None => false end.

Definition pick {A} (p : option A) (d : A) : A :=
  match p with Some v => v | None => d end.

(** [Object.assign(o, p)]. *)
Definition assign (o : Options) (p : PartialOptions) : Options := {|
  dbMin := pick (p_dbMin p) (dbMin o);
  dbMax := pick (p_dbMax p) (dbMax o);
  noiseFloor := pick (p_noiseFloor p) (noiseFloor o);
  ballistics := pick (p_ballistics p) (ballistics o);
  attackTime := pick (p_attackTime p) (attackTime o);
  releaseTime := pick (p_releaseTime p) (releaseTime o);
  label := pick (p_label p) (label o);
  brand := pick (p_brand p) (brand o);
  onClip := pick (p_onClip p) (onClip o);
  onClipRelease := pick (p_onClipRelease p) (onClipRelease o);
  clipThreshold := pick (p_clipThreshold p) (clipThreshold o);
  autoRange := pick (p_autoRange p) (autoRange o);
  autoRangeWindow := pick (p_autoRangeWindow p) (autoRangeWindow o);
  autoRangeMargin := pick (p_autoRangeMargin p) (autoRangeMargin o);
  showPeak := pick (p_showPeak p) (showPeak o);
  peakAttackTime := pick (p_peakAttackTime p) (peakAttackTime o);
  peakHoldTime := pick (p_peakHoldTime p) (peakHoldTime o);
  peakDecayTime := pick (p_peakDecayTime p) (peakDecayTime o);
  scalePreset := pick (p_scalePreset p) (scalePreset o) |}.

(** A partial options object holding only the two bounds. *)
Definition range_only (lo hi : Q) : PartialOptions :=
  {| p_dbMin := Some lo; p_dbMax := Some hi;
     p_noiseFloor := None; p_ballistics := None; p_attackTime := None;
     p_releaseTime := None; p_label := None; p_brand := None;
     p_onClip := None; p_onClipRelease := None;
     p_clipThreshold := None; p_autoRange := None;
     p_autoRangeWindow := None; p_autoRangeMargin := None;
     p_showPeak := None; p_peakAttackTime := None;
     p_peakHoldTime := None; p_peakDecayTime := None;
     p_scalePreset := None |}.

(** [this._options.dbMin = lo; this._options.dbMax = hi]. *)
Definition with_range (o : Options) (lo hi : Q) : Options :=
  assign o (range_only lo hi).

(** ** The instance state *)

(** One entry of [this._rangeSamples]: [{ db, t }]. *)
Record Sample := mkSample { s_db : Q; s_t : Q }.

Record Meter := mkMeter {
  m_options : Options;
  initDbMin : Q;
  initDbMax : Q;
  targetDb : Q;
  currentDb : Q;
  clipping : bool;
  lastTime : option Q;           (* null = None *)
  rangeSamples : list Sample;
  autoRangeTargetMin : Q;
  autoRangeTargetMax : Q;
  lastRebuiltDbMin : Q;
  lastRebuiltDbMax : Q;
  peakDb : Q;
  peakVisualDb : Q;
  peakHoldUntil : Q;
  peakDecaying : bool;
  hasPeakNeedle : bool           (* this._peakNeedle was built *)
}.

(** Observable effects of the core. *)
Inductive Event := RebuildScale | ClipEnter | ClipExit.

Definition Event_eqb (a b : Event) : bool :=
  match a, b with
  | RebuildScale, RebuildScale | ClipEnter, ClipEnter | ClipExit, ClipExit => true
  | _, _ => false
  end.

(** Field assignments [this._x = v]. *)
Definition set_options (m : Meter) (o : Options) : Meter :=
  mkMeter o (initDbMin m) (initDbMax m) (targetDb m) (currentDb m) (clipping m)
    (lastTime m) (rangeSamples m) (autoRangeTargetMin m) (autoRangeTargetMax m)
    (lastRebuiltDbMin m) (lastRebuiltDbMax m) (peakDb m) (peakVisualDb m)
    (peakHoldUntil m) (peakDecaying m) (hasPeakNeedle m).

Definition set_targetDb (m : Meter) (v : Q) : Meter :=
  mkMeter (m_options m) (initDbMin m) (initDbMax m) v (currentDb m) (clipping m)
    (lastTime m) (rangeSamples m) (autoRangeTargetMin m) (autoRangeTargetMax m)
    (lastRebuiltDbMin m) (lastRebuiltDbMax m) (peakDb m) (peakVisualDb m)
    (peakHoldUntil m) (peakDecaying m) (hasPeakNeedle m).

Definition set_currentDb (m : Meter) (v : Q) : Meter :=
  mkMeter (m_options m) (initDbMin m) (initDbMax m) (targetDb m) v (clipping m)
    (lastTime m) (rangeSamples m) (autoRangeTargetMin m) (autoRangeTargetMax m)
    (lastRebuiltDbMin m) (lastRebuiltDbMax m) (peakDb m) (peakVisualDb m)
    (peakHoldUntil m) (peakDecaying m) (hasPeakNeedle m).

Definition set_clipping (m : Meter) (c : bool) : Meter :=
  mkMeter (m_options m) (initDbMin m) (initDbMax m) (targetDb m) (currentDb m) c
    (lastTime m) (rangeSamples m) (autoRangeTargetMin m) (autoRangeTargetMax m)
    (lastRebuiltDbMin m) (lastRebuiltDbMax m) (peakDb m) (peakVisualDb m)
    (peakHoldUntil m) (peakDecaying m) (hasPeakNeedle m).

Definition set_lastTime (m : Meter) (t : option Q) : Meter :=
  mkMeter (m_options m) (initDbMin m) (initDbMax m) (targetDb m) (currentDb m)
    (clipping m) t (rangeSamples m) (autoRangeTargetMin m) (autoRangeTargetMax m)
    (lastRebuiltDbMin m) (lastRebuiltDbMax m) (peakDb m) (peakVisualDb m)
    (peakHoldUntil m) (peakDecaying m) (hasPeakNeedle m).

Definition set_rangeSamples (m : Meter) (ss : list Sample) : Meter :=
  mkMeter (m_options m) (initDbMin m) (initDbMax m) (targetDb m) (currentDb m)
    (clipping m) (lastTime m) ss (autoRangeTargetMin m) (autoRangeTargetMax m)
    (lastRebuiltDbMin m) (lastRebuiltDbMax m) (peakDb m) (peakVisualDb m)
    (peakHoldUntil m) (peakDecaying m) (hasPeakNeedle m).

Definition set_autoRangeTargets (m : Meter) (lo hi : Q) : Meter :=
  mkMeter (m_options m) (initDbMin m) (initDbMax m) (targetDb m) (currentDb m)
    (clipping m) (lastTime m) (rangeSamples m) lo hi
    (lastRebuiltDbMin m) (lastRebuiltDbMax m) (peakDb m) (peakVisualDb m)
    (peakHoldUntil m) (peakDecaying m) (hasPeakNeedle m).

Definition set_lastRebuilt (m : Meter) (lo hi : Q) : Meter :=
  mkMeter (m_options m) (initDbMin m) (initDbMax m) (targetDb m) (currentDb m)
    (clipping m) (lastTime m) (rangeSamples m) (autoRangeTargetMin m)
    (autoRangeTargetMax m) lo hi (peakDb m) (peakVisualDb m)
    (peakHoldUntil m) (peakDecaying m) (hasPeakNeedle m).

Definition set_peak (m : Meter) (held visual holdUntil : Q) (decaying : bool)
  : Meter :=
  mkMeter (m_options m) (initDbMin m) (initDbMax m) (targetDb m) (currentDb m)
    (clipping m) (lastTime m) (rangeSamples m) (autoRangeTargetMin m)
    (autoRangeTargetMax m) (lastRebuiltDbMin m) (lastRebuiltDbMax m)
    held visual holdUntil decaying (hasPeakNeedle m).

(** ** Construction *)

(** [new VUMeter(container, options)]: the state set up by the constructor
    ([_build] draws the face and creates [_peakNeedle] when [showPeak]). *)
Definition construct (p : PartialOptions) : Meter :=
  let o := assign DEFAULTS p in
  {| m_options := o;
     initDbMin := dbMin o; initDbMax := dbMax o;
     targetDb := dbMin o; currentDb := dbMin o;
     clipping := false; lastTime := None;
     rangeSamples := [];
     autoRangeTargetMin := dbMin o; autoRangeTargetMax := dbMax o;
     lastRebuiltDbMin := dbMin o; lastRebuiltDbMax := dbMax o;
     peakDb := dbMin o; peakVisualDb := dbMin o;
     peakHoldUntil := 0; peakDecaying := false;
     hasPeakNeedle := showPeak o |}.

(** ** Public API *)

(** [setRange(dbMin, dbMax)]. *)
Definition setRange (m : Meter) (lo hi : Q) : Meter * list Event :=
  let m1 := set_options m (with_range (m_options m) lo hi) in
  let m2 := set_targetDb m1 (js_max lo (js_min hi (targetDb m1))) in
  let m3 := set_currentDb m2 (js_max lo (js_min hi (currentDb m2))) in
  (set_lastRebuilt m3 lo hi, [RebuildScale]).

(** [resetRange()]. *)
Definition resetRange (m : Meter) : Meter * list Event :=
  let m1 := set_rangeSamples m [] in
  let m2 := set_autoRangeTargets m1 (initDbMin m1) (initDbMax m1) in
  let m3 := set_options m2 (with_range (m_options m2) (initDbMin m2) (initDbMax m2)) in
  (set_lastRebuilt m3 (initDbMin m3) (initDbMax m3), [RebuildScale]).

(** [setOptions(opts)]. *)
Definition setOptions (m : Meter) (p : PartialOptions) : Meter * list Event :=
  let needsRebuild :=
    is_present (p_clipThreshold p) || is_present (p_scalePreset p)
    || is_present (p_label p) || is_present (p_brand p) in
  (set_options m (assign (m_options m) p),
   if needsRebuild then [RebuildScale] else []).

(** The mapping of [setValue], lines 149-158, on the options [o] in force. *)
Definition map_db (o : Options) (db : Q) : Q :=
  let mapped :=
    if Qle_bool db (noiseFloor o) then dbMin o
    else dbMin o + (db - noiseFloor o) / (dbMax o - noiseFloor o)
                   * (dbMax o - dbMin o) in
  js_max (dbMin o) (js_min (dbMax o + 1) mapped).

(** The pruned sample window of [setValue], lines 122-126. *)
Definition window_samples (m : Meter) (db now : Q) : list Sample :=
  let cutoff := now - autoRangeWindow (m_options m) * 1000 in
  filter (fun s => Qle_bool cutoff (s_t s)) (rangeSamples m ++ [mkSample db now]).

(** The desired bounds [newMin], [newMax] of lines 128-133, when the window
    is non-empty. *)
Definition desired_bounds (m : Meter) (db now : Q) : option (Q * Q) :=
  match map s_db (window_samples m db now) with
  | [] => None
  | d :: ds =>
      let observedMin := list_min d ds in
      let observedMax := list_max d ds in
      Some (observedMin - autoRangeMargin (m_options m),
            observedMax + autoRangeMargin (m_options m))
  end.

(** The auto-range part of [setValue], lines 121-147. *)
Definition autoRangeTrack (m : Meter) (db now : Q) : Meter * list Event :=
  let opts := m_options m in
  let m1 := set_rangeSamples m (window_samples m db now) in
  match desired_bounds m db now with
  | None => (m1, [])
  | Some (newMin, newMax) =>
      let m2 := set_autoRangeTargets m1 newMin newMax in
      let '(expandMin, needMin) :=
        if Qlt_bool newMin (dbMin opts) then (newMin, true) else (dbMin opts, false) in
      let '(expandMax, needMax) :=
        if Qlt_bool (dbMax opts) newMax then (newMax, true) else (dbMax opts, false) in
      if needMin || needMax then setRange m2 expandMin expandMax else (m2, [])
  end.

(** [setValue(db)] at time [now] ([Date.now()]).  [opts] is an alias of
    [this._options], so the mapping reads the bounds as [setRange] left them. *)
Definition setValue (m : Meter) (db now : Q) : Meter * list Event :=
  let '(m1, ev) :=
    if autoRange (m_options m) then autoRangeTrack m db now else (m, []) in
  (set_targetDb m1 (map_db (m_options m1) db), ev).

(** ** The animation frame [_animate(timestamp)] *)

Section Frame.

(** The host's [Math.exp]. *)
Variable Math_exp : Q -> Q.

(** Auto-range contraction, lines 720-745. *)
Definition contract (m : Meter) (dt : Q) : Meter * list Event :=
  let o := m_options m in
  if autoRange o then
    let maxChange := dt / 1000 in
    let mn :=
      if Qlt_bool (dbMin o) (autoRangeTargetMin m)
      then js_min (dbMin o + maxChange) (autoRangeTargetMin m) else dbMin o in
    let mx :=
      if Qlt_bool (autoRangeTargetMax m) (dbMax o)
      then js_max (dbMax o - maxChange) (autoRangeTargetMax m) else dbMax o in
    let m1 := set_options m (with_range o mn mx) in
    if Qle_bool 1 (Qabs (mn - lastRebuiltDbMin m1))
       || Qle_bool 1 (Qabs (mx - lastRebuiltDbMax m1))
    then (set_lastRebuilt m1 mn mx, [RebuildScale])
    else (m1, [])
  else (m, []).

(** Main needle ballistics, lines 748-760 (before the pin to scale limits). *)
Definition ballistics_step (o : Options) (target current dt : Q) : Q :=
  if ballistics o then
    let diff := target - current in
    if Qlt_bool (Qabs diff) (5 # 1000) then target
    else
      let tau := if Qlt_bool 0 diff then attackTime o else releaseTime o in
      let factor := 1 - Math_exp (- dt / tau) in
      current + diff * factor
  else target.

(** [_updateClipState(db)], lines 847-872. *)
Definition updateClipState (m : Meter) (db : Q) : Meter * list Event :=
  let o := m_options m in
  let c := Qlt_bool (clipThreshold o) db in
  if Bool.eqb c (clipping m) then (m, [])
  else
    (set_clipping m c,
     (if c && onClip o then [ClipEnter] else [])
     ++ (if negb c && onClipRelease o then [ClipExit] else [])).

(** Peak capture and hold expiry, lines 773-783: the held value, the hold
    deadline and the decaying flag the rest of the peak block works with. *)
Definition peak_hold_state (m : Meter) (now : Q) : Q * Q * bool :=
  let o := m_options m in
  let '(held, holdUntil, decaying) :=
    if Qlt_bool (peakDb m) (targetDb m)
    then (targetDb m, now + peakHoldTime o, false)
    else (peakDb m, peakHoldUntil m, peakDecaying m) in
  let decaying :=
    if negb decaying && Qlt_bool 0 holdUntil && Qle_bool holdUntil now
    then true else decaying in
  (held, holdUntil, decaying).

(** The exponential decay of line 788. *)
Definition peak_decay_visual (o : Options) (visual dt : Q) : Q :=
  let factor := 1 - Math_exp (- dt / peakDecayTime o) in
  visual + (dbMin o - visual) * factor.

(** Peak hold needle, lines 770-804; [now] is [Date.now()]. *)
Definition peak_step (m : Meter) (dt now : Q) : Meter :=
  let o := m_options m in
  if showPeak o && hasPeakNeedle m then
    let '(held, holdUntil, decaying) := peak_hold_state m now in
    if decaying then
      let visual := peak_decay_visual o (peakVisualDb m) dt in
      if Qle_bool visual (dbMin o + (5 # 100))
      then set_peak m (dbMin o) (dbMin o) 0 false
      else set_peak m held visual holdUntil true
    else
      let factor := 1 - Math_exp (- dt / peakAttackTime o) in
      set_peak m held (peakVisualDb m + (held - peakVisualDb m) * factor)
        holdUntil false
  else m.

(** [_animate(timestamp)]; the needle drawing is left out. *)
Definition animate (m : Meter) (timestamp now : Q) : Meter * list Event :=
  let last := match lastTime m with Some t => t | None => timestamp end in
  let dt := js_min (timestamp - last) 100 in
  let m0 := set_lastTime m (Some timestamp) in
  let '(m1, ev1) := contract m0 dt in
  let o := m_options m1 in
  let cur := ballistics_step o (targetDb m1) (currentDb m1) dt in
  let m2 := set_currentDb m1 (js_max (dbMin o) (js_min (dbMax o + (1 # 2)) cur)) in
  let '(m3, ev2) := updateClipState m2 (currentDb m2) in
  (peak_step m3 dt now, ev1 ++ ev2).

End Frame.

(** An exponential for concrete runs: the first terms of its series. *)
Definition exp_approx (x : Q) : Q := 1 + x + x * x / 2 + x * x * x / 6.

(** ** Claim-side definitions *)


(** The clip events the specification asks for over a sequence of frame
    predicates, [prev] being the predicate at the previous evaluation. *)
Fixpoint edge_events (prev : bool) (ps : list bool) : list Event :=
  match ps with
  | [] => []
  | p :: ps' =>
      (if Bool.eqb p prev then [] else if p then [ClipEnter] else [ClipExit])
      ++ edge_events p ps'
  end.

(** Rising and falling edges of a predicate sequence. *)
Fixpoint rising_edges (prev : bool) (ps : list bool) : nat :=
  match ps with
  | [] => 0
  | p :: ps' => (if negb prev && p then 1 else 0) + rising_edges p ps'
  end%nat.

Fixpoint falling_edges (prev : bool) (ps : list bool) : nat :=
  match ps with
  | [] => 0
  | p :: ps' => (if prev && negb p then 1 else 0) + falling_edges p ps'
  end%nat.

(** A partial options object holding only [clipThreshold]. *)
Definition threshold_only (thr : Q) : PartialOptions :=
  {| p_dbMin := None; p_dbMax := None;
     p_noiseFloor := None; p_ballistics := None; p_attackTime := None;
     p_releaseTime := None; p_label := None; p_brand := None;
     p_onClip := None; p_onClipRelease := None;
     p_clipThreshold := Some thr; p_autoRange := None;
     p_autoRangeWindow := None; p_autoRangeMargin := None;
     p_showPeak := None; p_peakAttackTime := None;
     p_peakHoldTime := None; p_peakDecayTime := None;
     p_scalePreset := None |}.

(** A sequence of frame evaluations [(currentValue, clipThreshold)]: before
    each evaluation the threshold in force is set through [setOptions]. *)
Fixpoint clip_run (m : Meter) (frames : list (Q * Q)) : Meter * list Event :=
  match frames with
  | [] => (m, [])
  | (db, thr) :: rest =>
      let '(m1, _) := setOptions m (threshold_only thr) in
      let '(m2, e2) := updateClipState m1 db in
      let '(m3, e3) := clip_run m2 rest in
      (m3, e2 ++ e3)
  end.

Definition frame_predicates (frames : list (Q * Q)) : list bool :=
  map (fun f => Qlt_bool (snd f) (fst f)) frames.

(** The configuration of section 8's worked example. *)
Definition example_options : PartialOptions :=
  {| p_dbMin := Some (-20); p_dbMax := Some 3;
     p_noiseFloor := Some (-20); p_ballistics := None; p_attackTime := None;
     p_releaseTime := None; p_label := None; p_brand := None;
     p_onClip := None; p_onClipRelease := None;
     p_clipThreshold := None; p_autoRange := None;
     p_autoRangeWindow := None; p_autoRangeMargin := None;
     p_showPeak := None; p_peakAttackTime := None;
     p_peakHoldTime := None; p_peakDecayTime := None;
     p_scalePreset := None |}.

(** A meter with auto-range enabled. *)
Definition autorange_options : PartialOptions :=
  {| p_dbMin := None; p_dbMax := None;
     p_noiseFloor := None; p_ballistics := None; p_attackTime := None;
     p_releaseTime := None; p_label := None; p_brand := None;
     p_onClip := None; p_onClipRelease := None;
     p_clipThreshold := None; p_autoRange := Some true;
     p_autoRangeWindow := None; p_autoRangeMargin := None;
     p_showPeak := None; p_peakAttackTime := None;
     p_peakHoldTime := None; p_peakDecayTime := None;
     p_scalePreset := None |}.

(** A meter with both clip callbacks registered. *)
Definition callback_options : PartialOptions :=
  {| p_dbMin := None; p_dbMax := None;
     p_noiseFloor := None; p_ballistics := None; p_attackTime := None;
     p_releaseTime := None; p_label := None; p_brand := None;
     p_onClip := Some true; p_onClipRelease := Some true;
     p_clipThreshold := None; p_autoRange := None;
     p_autoRangeWindow := None; p_autoRangeMargin := None;
     p_showPeak := None; p_peakAttackTime := None;
     p_peakHoldTime := None; p_peakDecayTime := None;
     p_scalePreset := None |}.

(** A meter showing the peak needle. *)
Definition peak_options : PartialOptions :=
  {| p_dbMin := None; p_dbMax := None;
     p_noiseFloor := None; p_ballistics := None; p_attackTime := None;
     p_releaseTime := None; p_label := None; p_brand := None;
     p_onClip := None; p_onClipRelease := None;
     p_clipThreshold := None; p_autoRange := None;
     p_autoRangeWindow := None; p_autoRangeMargin := None;
     p_showPeak := Some true; p_peakAttackTime := None;
     p_peakHoldTime := None; p_peakDecayTime := None;
     p_scalePreset := None |}.

(** A reachable state with a peak held at 0 dB: a peak meter is fed 0 dB
    and two frames 16 ms apart run. *)
Definition peak_at_zero : Meter :=
  let m1 := fst (setValue (construct peak_options) 0 100) in
  let m2 := fst (animate exp_approx m1 0 100) in
  fst (animate exp_approx m2 16 116).

(** ** Geometry and pause/resume *)

(** [VUMeter.ANGLE_MIN] and [VUMeter.SWEEP]. *)
Definition ANGLE_MIN : Q := 220.
Definition SWEEP : Q := 100.

(** [_dbToAngleDeg(db)], lines 369-372. *)
Definition dbToAngleDeg (o : Options) (db : Q) : Q :=
  ANGLE_MIN + (db - dbMin o) / (dbMax o - dbMin o) * SWEEP.

(** [pause()] and [resume()], lines 201-215, on the pair
    [(this._paused, this)]; [pause] also cancels the scheduled frame. *)
Definition pause (st : bool * Meter) : bool * Meter := (true, snd st).

Definition resume (st : bool * Meter) : bool * Meter :=
  let '(paused, m) := st in
  if paused then (false, set_lastTime m None) else (paused, m).

(** ** The scale description built by [_buildScale] *)

Inductive Color := Black | Red.

(** The elements [_buildScale] appends to the scale group: arc paths, tick
    lines (major ticks are the longer, thicker ones) and tick labels. *)
Inductive ScaleElem :=
| ArcPath (color : Color) (from to : Q)
| TickLine (pos : Q) (major : bool) (color : Color)
| TickLabel (pos : Q) (text : string) (color : Color).

Definition color_of (isRed : bool) : Color := if isRed then Red else Black.

(** The two arcs, lines 381-404. *)
Definition scale_arcs (o : Options) : list ScaleElem :=
  let arcClip := js_max (dbMin o) (js_min (dbMax o) (clipThreshold o)) in
  (if Qlt_bool (dbMin o) arcClip then [ArcPath Black (dbMin o) arcClip] else [])
  ++ (if Qlt_bool arcClip (dbMax o) then [ArcPath Red arcClip (dbMax o)] else []).

(** Decimal text of an integer, as a template literal [`${d}`] prints it. *)
Fixpoint digits_of (fuel : nat) (n : Z) (acc : string) : string :=
  match fuel with
  | O => acc
  | S f =>
      let acc' := String (Ascii.ascii_of_nat (48 + Z.to_nat (Z.modulo n 10))) acc in
      if Z.eqb (Z.div n 10) 0 then acc' else digits_of f (Z.div n 10) acc'
  end.

Definition string_of_Z (z : Z) : string :=
  if Z.ltb z 0 then String.append "-" (digits_of 20 (- z) "") else digits_of 20 z "".

(** The standard VU major tick positions. *)
Definition allMajorTicks : list Z := [-20; -10; -7; -5; -3; -2; -1; 0; 1; 2; 3]%Z.

Definition majorTicks (o : Options) : list Z :=
  filter (fun d => Qle_bool (dbMin o) (inject_Z d) && Qle_bool (inject_Z d) (dbMax o))
    allMajorTicks.

(** The loop [for (let d = startTick; d <= dbMax; d++)] of lines 416-433,
    run on at most [fuel] iterations. *)
Fixpoint default_tick_loop (o : Options) (majors : list Z) (d : Z) (fuel : nat)
  : list ScaleElem :=
  match fuel with
  | O => []
  | S f =>
      if Qle_bool (inject_Z d) (dbMax o) then
        TickLine (inject_Z d) (existsb (Z.eqb d) majors)
          (color_of (Qlt_bool (clipThreshold o) (inject_Z d)))
        :: default_tick_loop o majors (d + 1) f
      else []
  end.

(** One more than the number of integers in [[ceil dbMin, dbMax]]: enough
    iterations for the loop to stop on its own test. *)
Definition default_tick_fuel (o : Options) : nat :=
  S (Z.to_nat (Qfloor (dbMax o) - Qceiling (dbMin o) + 1)).

Definition default_label (o : Options) (d : Z) : ScaleElem :=
  TickLabel (inject_Z d)
    (if Z.ltb 0 d then String.append "+" (string_of_Z d) else string_of_Z d)
    (color_of (Qlt_bool (clipThreshold o) (inject_Z d))).

(** [_buildDefaultScale()], lines 407-480. *)
Definition buildDefaultScale (o : Options) : list ScaleElem :=
  default_tick_loop o (majorTicks o) (Qceiling (dbMin o)) (default_tick_fuel o)
  ++ map (default_label o) (majorTicks o).

(** [VUMeter.SMETER_TICKS]. *)
Definition SMETER_TICKS : list (Z * string) :=
  [((-121)%Z, "S1"%string); ((-115)%Z, "S2"%string); ((-109)%Z, "S3"%string); ((-103)%Z, "S4"%string); ((-97)%Z, "S5"%string);
   ((-91)%Z, "S6"%string); ((-85)%Z, "S7"%string); ((-79)%Z, "S8"%string); ((-73)%Z, "S9"%string); ((-63)%Z, "+10"%string);
   ((-53)%Z, "+20"%string); ((-33)%Z, "+40"%string); ((-13)%Z, "+60"%string)].

Definition smeter_inRange (o : Options) : list (Z * string) :=
  filter (fun t => Qle_bool (dbMin o) (inject_Z (fst t)) && Qle_bool (inject_Z (fst t)) (dbMax o))
    SMETER_TICKS.

(** The loop [for (let d = dbMin; d <= dbMax; d += 6)] of lines 490-503,
    which skips the positions of S-unit ticks. *)
Fixpoint smeter_minor_loop (o : Options) (majors : list Z) (d : Q) (fuel : nat)
  : list ScaleElem :=
  match fuel with
  | O => []
  | S f =>
      if Qle_bool d (dbMax o) then
        (if existsb (fun t => Qeq_bool (inject_Z t) d) majors then []
         else [TickLine d false (color_of (Qlt_bool (clipThreshold o) d))])
        ++ smeter_minor_loop o majors (d + 6) f
      else []
  end.

Definition smeter_tick_fuel (o : Options) : nat :=
  S (Z.to_nat (Qfloor ((dbMax o - dbMin o) / 6) + 1)).

Definition smeter_major (o : Options) (t : Z * string) : list ScaleElem :=
  let c := color_of (Qlt_bool (clipThreshold o) (inject_Z (fst t))) in
  [TickLine (inject_Z (fst t)) true c; TickLabel (inject_Z (fst t)) (snd t) c].

(** [_buildSmeterScale()], lines 482-533. *)
Definition buildSmeterScale (o : Options) : list ScaleElem :=
  smeter_minor_loop o (map fst (smeter_inRange o)) (dbMin o) (smeter_tick_fuel o)
  ++ flat_map (smeter_major o) (smeter_inRange o).

(** [_buildScale()], lines 377-405 (branding is drawn by [_buildBranding]). *)
Definition buildScale (o : Options) : list ScaleElem :=
  scale_arcs o
  ++ (match scalePreset o with
      | Some s => if String.eqb s "smeter" then buildSmeterScale o else buildDefaultScale o
      | None => buildDefaultScale o
      end).

Definition tick_positions (es : list ScaleElem) : list Q :=
  flat_map (fun e => match e with TickLine p _ _ => [p] | _ => [] end) es.

(** [[a, a+1, ..., b]]. *)
Definition Z_range (a b : Z) : list Z :=
  map (fun k => a + Z.of_nat k)%Z (seq 0 (Z.to_nat (b - a + 1))).

(** The tick of [_buildDefaultScale] at the integer [d]. *)
Definition default_tick (o : Options) (majors : list Z) (d : Z) : ScaleElem :=
  TickLine (inject_Z d) (existsb (Z.eqb d) majors)
    (color_of (Qlt_bool (clipThreshold o) (inject_Z d))).

(** ** The earlier component [src/www/VUMeter.js]

    The first version of the component: no auto-range, no peak needle, the
    clip threshold fixed at 0 dB.  Its state is a part of [Meter]. *)
Module Www.

(** [setValue(db)] of the earlier version. *)
Definition setValue (m : Meter) (db : Q) : Meter :=
  let o := m_options m in
  let mapped :=
    if Qle_bool db (noiseFloor o) then dbMin o
    else dbMin o + (db - noiseFloor o) / (dbMax o - noiseFloor o) * (dbMax o - dbMin o) in
  set_targetDb m (js_max (dbMin o) (js_min (dbMax o + 1) mapped)).

(** [_updateClipState(db)] of the earlier version: [clipping = db > 0]. *)
Definition updateClipState (m : Meter) (db : Q) : Meter * list Event :=
  let o := m_options m in
  let c := Qlt_bool 0 db in
  if Bool.eqb c (clipping m) then (m, [])
  else
    (set_clipping m c,
     (if c && onClip o then [ClipEnter] else [])
     ++ (if negb c && onClipRelease o then [ClipExit] else [])).

(** [_animate(timestamp)] of the earlier version; the needle drawing is left
    out. *)
Definition animate (Math_exp : Q -> Q) (m : Meter) (timestamp : Q) : Meter * list Event :=
  let m0 := match lastTime m with None => set_lastTime m (Some timestamp) | Some _ => m end in
  let last := match lastTime m0 with Some t => t | None => timestamp end in
  let dt := js_min (timestamp - last) 100 in
  let m1 := set_lastTime m0 (Some timestamp) in
  let o := m_options m1 in
  let cur :=
    if ballistics o then
      let diff := targetDb m1 - currentDb m1 in
      if Qlt_bool (Qabs diff) (5 # 1000) then targetDb m1
      else
        let tau := if Qlt_bool 0 diff then attackTime o else releaseTime o in
        let factor := 1 - Math_exp (- dt / tau) in
        currentDb m1 + diff * factor
    else targetDb m1 in
  let m2 := set_currentDb m1 (js_max (dbMin o) (js_min (dbMax o + (1 # 2)) cur)) in
  updateClipState m2 (currentDb m2).

End Www.

(** ** JavaScript numbers on the silence path

    [setAmplitude(amp)] passes [-Infinity] to [setValue] for [amp <= 0], a
    value the rational model above has no room for.  This module follows
    [setAmplitude], [setValue], [setRange] and the scale rebuild with IEEE
    double values as extended rationals: rounding is not modelled and zero
    carries no sign (it is [+0]).  The rebuild keeps only its two open-ended
    loops (the 1 dB ticks of [_buildDefaultScale] and the 6 dB ticks of
    [_buildSmeterScale]); it returns the positions they visit, or [None] when
    they have not finished within [fuel] iterations.  The arcs, labels and
    branding loop over fixed lists and are left out. *)
Module JS.

Inductive num := Fin (q : Q) | PosInf | NegInf | NaN.

(** [a < b] *)
Definition lt_b (a b : num) : bool :=
  match a, b with
  | Fin x, Fin y => Qlt_bool x y
  | NegInf, Fin _ | NegInf, PosInf | Fin _, PosInf => true
  | _, _ => false
  end.

(** [a === b] *)
Definition eq_b (a b : num) : bool :=
  match a, b with
  | Fin x, Fin y => Qeq_bool x y
  | PosInf, PosInf | NegInf, NegInf => true
  | _, _ => false
  end.

(** [a <= b] *)
Definition le_b (a b : num) : bool := lt_b a b || eq_b a b.

Definition neg (a : num) : num :=
  match a with Fin x => Fin (- x) | PosInf => NegInf | NegInf => PosInf | NaN => NaN end.

Definition add (a b : num) : num :=
  match a, b with
  | NaN, _ | _, NaN => NaN
  | Fin x, Fin y => Fin (x + y)
  | PosInf, NegInf | NegInf, PosInf => NaN
  | PosInf, _ | _, PosInf => PosInf
  | NegInf, _ | _, NegInf => NegInf
  end.

Definition sub (a b : num) : num := add a (neg b).

Definition mul (a b : num) : num :=
  match a, b with
  | NaN, _ | _, NaN => NaN
  | Fin x, Fin y => Fin (x * y)
  | Fin x, i | i, Fin x =>
      if Qeq_bool x 0 then NaN else if Qlt_bool 0 x then i else neg i
  | PosInf, PosInf | NegInf, NegInf => PosInf
  | _, _ => NegInf
  end.

Definition div (a b : num) : num :=
  match a, b with
  | NaN, _ | _, NaN => NaN
  | Fin x, Fin y =>
      if Qeq_bool y 0 then
        (if Qeq_bool x 0 then NaN else if Qlt_bool 0 x then PosInf else NegInf)
      else Fin (x / y)
  | Fin _, _ => Fin 0
  | i, Fin y => if Qlt_bool y 0 then neg i else i
  | _, _ => NaN
  end.

(** [Math.min(a, b)] and [Math.max(a, b)]. *)
Definition math_min (a b : num) : num :=
  match a, b with
  | NaN, _ | _, NaN => NaN
  | _, _ => if lt_b b a then b else a
  end.

Definition math_max (a b : num) : num :=
  match a, b with
  | NaN, _ | _, NaN => NaN
  | _, _ => if lt_b a b then b else a
  end.

(** [Math.ceil(a)] *)
Definition math_ceil (a : num) : num :=
  match a with Fin x => Fin (inject_Z (Qceiling x)) | _ => a end.

(** The fields of the instance and of [this._options] on this path. *)
Record JMeter := mkJMeter {
  j_dbMin : num;
  j_dbMax : num;
  j_noiseFloor : num;
  j_autoRange : bool;
  j_autoRangeWindow : num;
  j_autoRangeMargin : num;
  j_smeter : bool;                 (* scalePreset === 'smeter' *)
  j_targetDb : num;
  j_currentDb : num;
  j_rangeSamples : list (num * num);   (* { db, t } *)
  j_autoRangeTargetMin : num;
  j_autoRangeTargetMax : num;
  j_lastRebuiltDbMin : num;
  j_lastRebuiltDbMax : num
}.

Definition set_range (m : JMeter) (lo hi target current : num) : JMeter :=
  mkJMeter lo hi (j_noiseFloor m) (j_autoRange m) (j_autoRangeWindow m)
    (j_autoRangeMargin m) (j_smeter m) target current (j_rangeSamples m)
    (j_autoRangeTargetMin m) (j_autoRangeTargetMax m)
    (j_lastRebuiltDbMin m) (j_lastRebuiltDbMax m).

Definition set_lastRebuilt (m : JMeter) (lo hi : num) : JMeter :=
  mkJMeter (j_dbMin m) (j_dbMax m) (j_noiseFloor m) (j_autoRange m)
    (j_autoRangeWindow m) (j_autoRangeMargin m) (j_smeter m) (j_targetDb m)
    (j_currentDb m) (j_rangeSamples m) (j_autoRangeTargetMin m)
    (j_autoRangeTargetMax m) lo hi.

Definition set_rangeSamples (m : JMeter) (ss : list (num * num)) : JMeter :=
  mkJMeter (j_dbMin m) (j_dbMax m) (j_noiseFloor m) (j_autoRange m)
    (j_autoRangeWindow m) (j_autoRangeMargin m) (j_smeter m) (j_targetDb m)
    (j_currentDb m) ss (j_autoRangeTargetMin m) (j_autoRangeTargetMax m)
    (j_lastRebuiltDbMin m) (j_lastRebuiltDbMax m).

Definition set_autoRangeTargets (m : JMeter) (lo hi : num) : JMeter :=
  mkJMeter (j_dbMin m) (j_dbMax m) (j_noiseFloor m) (j_autoRange m)
    (j_autoRangeWindow m) (j_autoRangeMargin m) (j_smeter m) (j_targetDb m)
    (j_currentDb m) (j_rangeSamples m) lo hi
    (j_lastRebuiltDbMin m) (j_lastRebuiltDbMax m).

Definition set_targetDb (m : JMeter) (v : num) : JMeter :=
  mkJMeter (j_dbMin m) (j_dbMax m) (j_noiseFloor m) (j_autoRange m)
    (j_autoRangeWindow m) (j_autoRangeMargin m) (j_smeter m) v
    (j_currentDb m) (j_rangeSamples m) (j_autoRangeTargetMin m)
    (j_autoRangeTargetMax m) (j_lastRebuiltDbMin m) (j_lastRebuiltDbMax m).

(** [for (let d = start; d <= dbMax; d += step)]: the positions visited, or
    [None] when the loop has not ended within [fuel] iterations. *)
Fixpoint tick_loop (fuel : nat) (d dbMax step : num) : option (list num) :=
  if le_b d dbMax then
    match fuel with
    | O => None
    | S f => option_map (cons d) (tick_loop f (add d step) dbMax step)
    end
  else Some [].

(** [_rebuildScale()]: the tick loop of [_buildSmeterScale] (from [dbMin],
    step 6) or of [_buildDefaultScale] (from [Math.ceil(dbMin)], step 1). *)
Definition rebuildScale (fuel : nat) (m : JMeter) : option (list num) :=
  if j_smeter m then tick_loop fuel (j_dbMin m) (j_dbMax m) (Fin 6)
  else tick_loop fuel (math_ceil (j_dbMin m)) (j_dbMax m) (Fin 1).

(** [setRange(dbMin, dbMax)]; [None] when the rebuild does not return. *)
Definition setRange (fuel : nat) (m : JMeter) (lo hi : num) : option JMeter :=
  let m1 := set_range m lo hi (math_max lo (math_min hi (j_targetDb m)))
                         (math_max lo (math_min hi (j_currentDb m))) in
  match rebuildScale fuel m1 with
  | None => None
  | Some _ => Some (set_lastRebuilt m1 lo hi)
  end.

(** [setValue(db)] at time [now] ([Date.now()]). *)
Definition setValue (fuel : nat) (m : JMeter) (db now : num) : option JMeter :=
  let m1 :=
    if j_autoRange m then
      let cutoff := sub now (mul (j_autoRangeWindow m) (Fin 1000)) in
      let ss := filter (fun s => le_b cutoff (snd s)) (j_rangeSamples m ++ [(db, now)]) in
      let m2 := set_rangeSamples m ss in
      match map fst ss with
      | [] => Some m2
      | d :: ds =>
          let observedMin := fold_left math_min ds d in
          let observedMax := fold_left math_max ds d in
          let newMin := sub observedMin (j_autoRangeMargin m) in
          let newMax := add observedMax (j_autoRangeMargin m) in
          let m3 := set_autoRangeTargets m2 newMin newMax in
          let '(expandMin, needMin) :=
            if lt_b newMin (j_dbMin m) then (newMin, true) else (j_dbMin m, false) in
          let '(expandMax, needMax) :=
            if lt_b (j_dbMax m) newMax then (newMax, true) else (j_dbMax m, false) in
          if needMin || needMax then setRange fuel m3 expandMin expandMax else Some m3
      end
    else Some m in
  match m1 with
  | None => None
  | Some m4 =>
      let mapped :=
        if le_b db (j_noiseFloor m4) then j_dbMin m4
        else add (j_dbMin m4)
               (mul (div (sub db (j_noiseFloor m4)) (sub (j_dbMax m4) (j_noiseFloor m4)))
                    (sub (j_dbMax m4) (j_dbMin m4))) in
      Some (set_targetDb m4 (math_max (j_dbMin m4) (math_min (add (j_dbMax m4) (Fin 1)) mapped)))
  end.


End JS.



(** ** Basic facts *)

Lemma Qlt_bool_iff (a b : Q) : Qlt_bool a b = true <-> a < b.
Proof.
  unfold Qlt_bool. rewrite negb_true_iff. split; intro H.
  - apply Qnot_le_lt. intro H'. apply Qle_bool_iff in H'. congruence.
  - destruct (Qle_bool b a) eqn:E; [|reflexivity].
    apply Qle_bool_iff in E. exfalso. apply (Qlt_not_le a b); assumption.
Qed.

Lemma Qlt_bool_false (a b : Q) : Qlt_bool a b = false <-> b <= a.
Proof.
  unfold Qlt_bool. rewrite negb_false_iff. apply Qle_bool_iff.
Qed.

Lemma Qle_bool_false (a b : Q) : Qle_bool a b = false <-> b < a.
Proof.
  split; intro H.
  - apply Qnot_le_lt. intro H'. apply Qle_bool_iff in H'. congruence.
  - destruct (Qle_bool a b) eqn:E; [|reflexivity].
    apply Qle_bool_iff in E. exfalso. apply (Qlt_not_le b a); assumption.
Qed.

Ltac qbool :=
  repeat match goal with
  | H : Qle_bool _ _ = true |- _ => apply Qle_bool_iff in H
  | H : Qle_bool _ _ = false |- _ => apply Qle_bool_false in H
  | H : Qlt_bool _ _ = true |- _ => apply Qlt_bool_iff in H
  | H : Qlt_bool _ _ = false |- _ => apply Qlt_bool_false in H
  end.

Lemma js_min_le_l (a b : Q) : js_min a b <= a.
Proof.
  unfold js_min. destruct (Qle_bool a b) eqn:E; qbool.
  - apply Qle_refl.
  - apply Qlt_le_weak; assumption.
Qed.

Lemma js_min_le_r (a b : Q) : js_min a b <= b.
Proof. unfold js_min. destruct (Qle_bool a b) eqn:E; qbool; [assumption | apply Qle_refl]. Qed.

Lemma js_min_cases (a b : Q) : js_min a b = a \/ js_min a b = b.
Proof. unfold js_min. destruct (Qle_bool a b); auto. Qed.

Lemma js_max_ge_l (a b : Q) : a <= js_max a b.
Proof.
  unfold js_max. destruct (Qle_bool b a) eqn:E; qbool.
  - apply Qle_refl.
  - apply Qlt_le_weak; assumption.
Qed.

Lemma js_max_ge_r (a b : Q) : b <= js_max a b.
Proof. unfold js_max. destruct (Qle_bool b a) eqn:E; qbool; [assumption | apply Qle_refl]. Qed.

Lemma js_max_cases (a b : Q) : js_max a b = a \/ js_max a b = b.
Proof. unfold js_max. destruct (Qle_bool b a); auto. Qed.



(** What the auto-range part of [setValue] does to the options. *)
Lemma autoRangeTrack_options (m : Meter) (db now : Q) :
  let o := m_options m in
  let o' := m_options (fst (autoRangeTrack m db now)) in
  noiseFloor o' = noiseFloor o /\ autoRange o' = autoRange o
  /\ dbMax o <= dbMax o' /\ dbMin o' <= dbMin o
  /\ (forall newMin newMax, desired_bounds m db now = Some (newMin, newMax) ->
        (newMin < dbMin o -> dbMin o' = newMin)
        /\ (dbMax o < newMax -> dbMax o' = newMax)).
Proof.
  cbv zeta. unfold autoRangeTrack.
  destruct (desired_bounds m db now) as [[nmn nmx]|] eqn:D.
  - destruct (Qlt_bool nmn (dbMin (m_options m))) eqn:E1;
    destruct (Qlt_bool (dbMax (m_options m)) nmx) eqn:E2; cbn; qbool;
    (split; [reflexivity | split; [reflexivity | ]]);
    (split; [ | split; [ | intros a b Hab; injection Hab as <- <-;
                           split; intro Hl; [ | ] ]]);
    try apply Qle_refl; try apply Qlt_le_weak; try assumption; try reflexivity;
    exfalso; eapply Qlt_not_le; eassumption.
  - cbn. split; [reflexivity | split; [reflexivity | ]].
    split; [apply Qle_refl | split; [apply Qle_refl | intros a b Hab; discriminate]].
Qed.

Lemma setValue_options (m : Meter) (db now : Q) :
  m_options (fst (setValue m db now))
  = m_options (fst (if autoRange (m_options m) then autoRangeTrack m db now else (m, []))).
Proof.
  unfold setValue. destruct (if autoRange (m_options m) then _ else _). reflexivity.
Qed.

Lemma setValue_targetDb (m : Meter) (db now : Q) :
  targetDb (fst (setValue m db now))
  = map_db (m_options (fst (setValue m db now))) db.
Proof.
  unfold setValue. destruct (if autoRange (m_options m) then _ else _). reflexivity.
Qed.


(** *** JavaScript numbers *)














(** ** Range Mapper *)




(** C9 (as stated): with [displayMin = -20], [displayMax = 3],
    [noiseFloor = -20], [setValue(-60)] gives target [-20] and
    [setValue(-8.5)] a target near [-10.07].  The second half fails: the
    target is not even within one unit of [-10.07]. *)
Lemma worked_example_not_near_10_07 :
  ~ (targetDb (fst (setValue (construct example_options) (-60) 0)) == -20
     /\ Qabs (targetDb (fst (setValue (construct example_options) (-17 # 2) 0))
              - (-1007 # 100)) < 1).
Proof.
  intros [_ H]. vm_compute in H. discriminate H.
Qed.

(** C9 (amended): in that configuration [noiseFloor = displayMin], so the
    mapping is the identity above the noise floor: [setValue(-60)] gives
    target [-20] and [setValue(-8.5)] gives exactly [-8.5]. *)
Theorem worked_example_targets :
  targetDb (fst (setValue (construct example_options) (-60) 0)) == -20
  /\ targetDb (fst (setValue (construct example_options) (-17 # 2) 0)) == -17 # 2.
Proof. split; vm_compute; reflexivity. Qed.

(** ** Configuration *)

(** C2 (as stated): an invalid range is rejected and leaves the
    configuration unchanged.  It is not: from a valid meter, [setRange(5, 3)]
    returns normally with the bounds [5 > 3] applied, and
    [setOptions({dbMin: -20, dbMax: -20})] applies [displayMax == noiseFloor]. *)
Lemma invalid_range_applied :
  let m0 := construct no_options in
  let m1 := fst (setRange m0 5 3) in
  let m2 := fst (setOptions m0 (range_only (-20) (-20))) in
  dbMin (m_options m0) < dbMax (m_options m0)
  /\ noiseFloor (m_options m0) < dbMax (m_options m0)
  /\ dbMax (m_options m1) <= dbMin (m_options m1)
  /\ m_options m1 <> m_options m0
  /\ dbMax (m_options m2) = noiseFloor (m_options m2)
  /\ m_options m2 <> m_options m0.
Proof.
  cbv zeta. repeat split; vm_compute; try reflexivity; try discriminate.
Qed.

(** C2 (amended): construction, [setOptions] and [setRange] validate
    nothing and never fail: they apply the given values as they are. *)
Theorem configuration_applied_unchecked :
  (forall p, m_options (construct p) = assign DEFAULTS p)
  /\ (forall m p, m_options (fst (setOptions m p)) = assign (m_options m) p)
  /\ (forall m lo hi,
        let o' := m_options (fst (setRange m lo hi)) in
        dbMin o' = lo /\ dbMax o' = hi /\ noiseFloor o' = noiseFloor (m_options m)).
Proof.
  split; [reflexivity | split; [reflexivity | ]].
  intros m lo hi. repeat split.
Qed.

(** ** Auto-range expansion *)

(** C4: with auto-range on, when the desired bounds computed from the
    sample window of this call ([observedMin - margin], [observedMax +
    margin]) lie outside [displayMin]/[displayMax], the same [setValue] call
    moves the bound to the desired one. *)
Theorem setValue_expands_immediately (m : Meter) (db now newMin newMax : Q)
  (HA : autoRange (m_options m) = true)
  (HD : desired_bounds m db now = Some (newMin, newMax)) :
  let o' := m_options (fst (setValue m db now)) in
  (newMin < dbMin (m_options m) -> dbMin o' = newMin)
  /\ (dbMax (m_options m) < newMax -> dbMax o' = newMax).
Proof.
  cbv zeta. rewrite setValue_options, HA.
  destruct (autoRangeTrack_options m db now) as (_ & _ & _ & _ & H).
  apply H. exact HD.
Qed.

Lemma setValue_expands_immediately_witness :
  autoRange (m_options (construct autorange_options)) = true
  /\ desired_bounds (construct autorange_options) (-60) 1000 = Some (-62, -58)
  /\ (let o' := m_options (fst (setValue (construct autorange_options) (-60) 1000)) in
      (-62 < dbMin (m_options (construct autorange_options)) -> dbMin o' = -62)
      /\ (dbMax (m_options (construct autorange_options)) < -58 -> dbMax o' = -58)).
Proof.
  split; [reflexivity | split; [vm_compute; reflexivity | ]].
  apply (setValue_expands_immediately (construct autorange_options) (-60) 1000 (-62) (-58)).
  - reflexivity.
  - vm_compute. reflexivity.
Defined.

(** C10: with auto-range off, [setValue(db)] assigns [this._targetDb] and
    nothing else: every other field of the instance is left as it was, and
    no scale rebuild or callback happens. *)
Theorem setValue_only_target (m : Meter) (db now : Q)
  (HA : autoRange (m_options m) = false) :
  setValue m db now = (set_targetDb m (map_db (m_options m) db), []).
Proof. unfold setValue. rewrite HA. reflexivity. Qed.

Lemma setValue_only_target_witness :
  autoRange (m_options (construct no_options)) = false
  /\ setValue (construct no_options) (-6) 0
     = (set_targetDb (construct no_options) (map_db (m_options (construct no_options)) (-6)), []).
Proof.
  split; [reflexivity | ].
  apply (setValue_only_target (construct no_options) (-6) 0). reflexivity.
Defined.

(** ** Ballistics filter *)

(** C3: with ballistics on, one filter step snaps the current value to the
    target when [|target - current| < 0.005], and otherwise adds
    [diff * (1 - exp(-dt / tau))], with [tau] the attack time when
    [diff > 0] and the release time otherwise. *)
Theorem ballistics_step_rule (Math_exp : Q -> Q) (o : Options) (target current dt : Q)
  (HB : ballistics o = true) :
  let diff := target - current in
  (Qabs diff < 5 # 1000 -> ballistics_step Math_exp o target current dt = target)
  /\ (~ Qabs diff < 5 # 1000 -> 0 < diff ->
      ballistics_step Math_exp o target current dt
      = current + diff * (1 - Math_exp (- dt / attackTime o)))
  /\ (~ Qabs diff < 5 # 1000 -> diff <= 0 ->
      ballistics_step Math_exp o target current dt
      = current + diff * (1 - Math_exp (- dt / releaseTime o))).
Proof.
  cbv zeta. unfold ballistics_step. rewrite HB.
  destruct (Qlt_bool (Qabs (target - current)) (5 # 1000)) eqn:E; qbool.
  - split; [reflexivity | split; intros Hn; exfalso; apply Hn; assumption].
  - split; [intro Hl; exfalso; apply (Qlt_not_le _ _ Hl); assumption | ].
    split; intros _ Hd.
    + apply Qlt_bool_iff in Hd. rewrite Hd. reflexivity.
    + apply Qlt_bool_false in Hd. rewrite Hd. reflexivity.
Qed.

Lemma ballistics_step_rule_witness :
  ballistics DEFAULTS = true
  /\ (let diff := 0 - (-20) in
      (Qabs diff < 5 # 1000 -> ballistics_step exp_approx DEFAULTS 0 (-20) 16 = 0)
      /\ (~ Qabs diff < 5 # 1000 -> 0 < diff ->
          ballistics_step exp_approx DEFAULTS 0 (-20) 16
          = -20 + diff * (1 - exp_approx (- 16 / attackTime DEFAULTS)))
      /\ (~ Qabs diff < 5 # 1000 -> diff <= 0 ->
          ballistics_step exp_approx DEFAULTS 0 (-20) 16
          = -20 + diff * (1 - exp_approx (- 16 / releaseTime DEFAULTS)))).
Proof.
  split; [reflexivity | ].
  apply (ballistics_step_rule exp_approx DEFAULTS 0 (-20) 16). reflexivity.
Defined.

(** ** Frame bookkeeping *)

Lemma updateClipState_options (m : Meter) (db : Q) :
  m_options (fst (updateClipState m db)) = m_options m.
Proof.
  unfold updateClipState. destruct (Bool.eqb _ _); reflexivity.
Qed.

Lemma peak_step_options (Math_exp : Q -> Q) (m : Meter) (dt now : Q) :
  m_options (peak_step Math_exp m dt now) = m_options m.
Proof.
  unfold peak_step. destruct (showPeak (m_options m) && hasPeakNeedle m); [|reflexivity].
  destruct (peak_hold_state m now) as [[held hu] dec].
  destruct dec; [destruct (Qle_bool _ _) | ]; reflexivity.
Qed.

(** The bounds after a frame are those the contraction step leaves. *)
Lemma animate_options (Math_exp : Q -> Q) (m : Meter) (timestamp now : Q) :
  m_options (fst (animate Math_exp m timestamp now))
  = m_options (fst (contract (set_lastTime m (Some timestamp))
                      (js_min (timestamp - pick (lastTime m) timestamp) 100))).
Proof.
  unfold animate.
  destruct (contract _ _) as [m1 ev1]. cbn [fst].
  destruct (updateClipState _ _) as [m3 ev2] eqn:U. cbn [fst].
  rewrite peak_step_options.
  change m3 with (fst (m3, ev2)). rewrite <- U, updateClipState_options.
  reflexivity.
Qed.

Lemma div1000_nonneg (d : Q) : 0 <= d -> 0 <= d / 1000.
Proof.
  intro H. apply Qle_shift_div_l; [reflexivity | ]. rewrite Qmult_0_l. exact H.
Qed.

Lemma div1000_mono (a b : Q) : a <= b -> a / 1000 <= b / 1000.
Proof.
  intro H. apply Qmult_le_compat_r; [exact H | discriminate].
Qed.

(** The contraction step moves each bound toward its target by at most
    [c / 1000] and never past it. *)
Lemma contract_bounds (m : Meter) (c : Q)
  (HA : autoRange (m_options m) = true) (Hc : 0 <= c) :
  let o := m_options m in
  let o' := m_options (fst (contract m c)) in
  (dbMin o <= dbMin o' /\ dbMin o' <= dbMin o + c / 1000)
  /\ (dbMin o < autoRangeTargetMin m -> dbMin o' <= autoRangeTargetMin m)
  /\ (autoRangeTargetMin m <= dbMin o -> dbMin o' = dbMin o)
  /\ (dbMax o - c / 1000 <= dbMax o' /\ dbMax o' <= dbMax o)
  /\ (autoRangeTargetMax m < dbMax o -> autoRangeTargetMax m <= dbMax o')
  /\ (dbMax o <= autoRangeTargetMax m -> dbMax o' = dbMax o).
Proof.
  pose proof (div1000_nonneg c Hc) as Hk.
  cbv zeta. unfold contract. rewrite HA. cbv zeta.
  set (k := c / 1000) in *.
  set (o := m_options m).
  set (tmin := autoRangeTargetMin m). set (tmax := autoRangeTargetMax m).
  set (mn := if Qlt_bool (dbMin o) tmin then js_min (dbMin o + k) tmin else dbMin o).
  set (mx := if Qlt_bool tmax (dbMax o) then js_max (dbMax o - k) tmax else dbMax o).
  assert (Ho : forall (b : bool) (ev1 ev2 : list Event),
    m_options (fst (if b then (set_lastRebuilt (set_options m (with_range o mn mx)) mn mx, ev1)
                    else (set_options m (with_range o mn mx), ev2)))
    = with_range o mn mx) by (intros b ? ?; destruct b; reflexivity).
  rewrite Ho. unfold with_range, assign, range_only, pick.
  cbn [p_dbMin p_dbMax dbMin dbMax].
  pose proof (js_min_le_l (dbMin o + k) tmin) as L1.
  pose proof (js_min_le_r (dbMin o + k) tmin) as L2.
  pose proof (js_min_cases (dbMin o + k) tmin) as L3.
  pose proof (js_max_ge_l (dbMax o - k) tmax) as L4.
  pose proof (js_max_ge_r (dbMax o - k) tmax) as L5.
  pose proof (js_max_cases (dbMax o - k) tmax) as L6.
  subst mn mx.
  destruct (Qlt_bool (dbMin o) tmin) eqn:E1; destruct (Qlt_bool tmax (dbMax o)) eqn:E2;
    qbool;
    (split; [split | split; [ | split; [ | split; [split | split]]]]);
    try match goal with |- _ -> _ => intro end; try reflexivity;
    try (destruct L3 as [L3 | L3]; rewrite L3; lra);
    try (destruct L6 as [L6 | L6]; rewrite L6; lra);
    try lra.
Qed.

(** ** Auto-range contraction *)

(** C5: with auto-range on, a frame whose timestamp is [elapsed >= 0]
    milliseconds after the previous one moves [displayMin] up by at most
    [elapsed / 1000] and [displayMax] down by at most [elapsed / 1000],
    toward the contraction targets and never past them; a bound already at
    or beyond its target stays where it is. *)
Theorem frame_contraction_rate_limited (Math_exp : Q -> Q) (m : Meter) (timestamp now : Q)
  (HA : autoRange (m_options m) = true)
  (Ht : 0 <= timestamp - pick (lastTime m) timestamp) :
  let elapsed := timestamp - pick (lastTime m) timestamp in
  let o := m_options m in
  let o' := m_options (fst (animate Math_exp m timestamp now)) in
  (dbMin o <= dbMin o' /\ dbMin o' <= dbMin o + elapsed / 1000)
  /\ (dbMin o < autoRangeTargetMin m -> dbMin o' <= autoRangeTargetMin m)
  /\ (autoRangeTargetMin m <= dbMin o -> dbMin o' = dbMin o)
  /\ (dbMax o - elapsed / 1000 <= dbMax o' /\ dbMax o' <= dbMax o)
  /\ (autoRangeTargetMax m < dbMax o -> autoRangeTargetMax m <= dbMax o')
  /\ (dbMax o <= autoRangeTargetMax m -> dbMax o' = dbMax o).
Proof.
  cbv zeta. rewrite animate_options.
  set (e := timestamp - pick (lastTime m) timestamp) in *.
  set (c := js_min e 100).
  assert (Hc0 : 0 <= c).
  { subst c. destruct (js_min_cases e 100) as [H | H]; rewrite H; [exact Ht | discriminate]. }
  assert (Hce : c / 1000 <= e / 1000) by (apply div1000_mono, js_min_le_l).
  destruct (contract_bounds (set_lastTime m (Some timestamp)) c HA Hc0)
    as ((A1 & A2) & A3 & A4 & (A5 & A6) & A7 & A8).
  cbn [m_options autoRangeTargetMin autoRangeTargetMax set_lastTime] in *.
  set (o' := m_options (fst (contract (set_lastTime m (Some timestamp)) c))) in *.
  set (kc := c / 1000) in *. set (ke := e / 1000) in *.
  split; [split; lra | ].
  split; [exact A3 | split; [exact A4 | ]].
  split; [split; lra | ].
  split; [exact A7 | exact A8].
Qed.

Lemma frame_contraction_rate_limited_witness :
  let m := set_autoRangeTargets
             (set_lastTime (construct autorange_options) (Some 1000)) (-15) 0 in
  autoRange (m_options m) = true
  /\ 0 <= 1016 - pick (lastTime m) 1016
  /\ (let elapsed := 1016 - pick (lastTime m) 1016 in
      let o := m_options m in
      let o' := m_options (fst (animate exp_approx m 1016 1016)) in
      (dbMin o <= dbMin o' /\ dbMin o' <= dbMin o + elapsed / 1000)
      /\ (dbMin o < autoRangeTargetMin m -> dbMin o' <= autoRangeTargetMin m)
      /\ (autoRangeTargetMin m <= dbMin o -> dbMin o' = dbMin o)
      /\ (dbMax o - elapsed / 1000 <= dbMax o' /\ dbMax o' <= dbMax o)
      /\ (autoRangeTargetMax m < dbMax o -> autoRangeTargetMax m <= dbMax o')
      /\ (dbMax o <= autoRangeTargetMax m -> dbMax o' = dbMax o)).
Proof.
  cbv zeta.
  split; [reflexivity | split; [vm_compute; discriminate | ]].
  apply frame_contraction_rate_limited.
  - reflexivity.
  - vm_compute. discriminate.
Defined.

(** ** Threshold monitor *)

Lemma updateClipState_step (m : Meter) (db : Q)
  (H1 : onClip (m_options m) = true) (H2 : onClipRelease (m_options m) = true) :
  let p := Qlt_bool (clipThreshold (m_options m)) db in
  snd (updateClipState m db)
    = (if Bool.eqb p (clipping m) then [] else if p then [ClipEnter] else [ClipExit])
  /\ clipping (fst (updateClipState m db)) = p
  /\ m_options (fst (updateClipState m db)) = m_options m.
Proof.
  cbv zeta. unfold updateClipState. rewrite H1, H2.
  destruct (Qlt_bool (clipThreshold (m_options m)) db) eqn:P;
  destruct (clipping m) eqn:C; cbn; rewrite ?C; auto.
Qed.

Lemma last_cons_default {A} (l : list A) :
  forall x d : A, last (x :: l) d = last l x.
Proof.
  induction l as [| a l IH]; intros x d; [reflexivity | ].
  change (last (a :: l) d = last (a :: l) x). rewrite !IH. reflexivity.
Qed.

Lemma clip_run_events (frames : list (Q * Q)) :
  forall m : Meter,
  onClip (m_options m) = true -> onClipRelease (m_options m) = true ->
  snd (clip_run m frames) = edge_events (clipping m) (frame_predicates frames)
  /\ clipping (fst (clip_run m frames)) = last (frame_predicates frames) (clipping m).
Proof.
  induction frames as [| [db thr] rest IH]; intros m H1 H2.
  - split; reflexivity.
  - cbn [clip_run setOptions]. cbn [fst snd].
    set (m1 := set_options m (assign (m_options m) (threshold_only thr))).
    assert (E1 : onClip (m_options m1) = true) by exact H1.
    assert (E2 : onClipRelease (m_options m1) = true) by exact H2.
    destruct (updateClipState_step m1 db E1 E2) as (S1 & S2 & S3).
    destruct (updateClipState m1 db) as [m2 e2]. cbn [fst snd] in *.
    rewrite <- S3 in E1, E2.
    destruct (IH m2 E1 E2) as (R1 & R2).
    destruct (clip_run m2 rest) as [m3 e3]. cbn [fst snd] in *.
    rewrite S2 in R1, R2.
    unfold frame_predicates. cbn [map fst snd].
    fold (frame_predicates rest).
    split.
    + rewrite S1, R1. reflexivity.
    + rewrite R2, last_cons_default. reflexivity.
Qed.

Lemma edge_events_rising (prev : bool) (ps : list bool) :
  List.length (filter (Event_eqb ClipEnter) (edge_events prev ps)) = rising_edges prev ps.
Proof.
  revert prev. induction ps as [| p ps IH]; intro prev; [reflexivity | ].
  cbn [edge_events rising_edges]. rewrite filter_app, length_app, IH.
  destruct p, prev; reflexivity.
Qed.

Lemma edge_events_falling (prev : bool) (ps : list bool) :
  List.length (filter (Event_eqb ClipExit) (edge_events prev ps)) = falling_edges prev ps.
Proof.
  revert prev. induction ps as [| p ps IH]; intro prev; [reflexivity | ].
  cbn [edge_events falling_edges]. rewrite filter_app, length_app, IH.
  destruct p, prev; reflexivity.
Qed.

(** C6: over a sequence of frame evaluations of [currentValue >
    clipThreshold] (the threshold in force being set before each one), with
    both callbacks registered, the callbacks fired are exactly one
    [onClip] per rising edge and one [onClipRelease] per falling edge and
    nothing on a frame whose predicate equals the previous one.  The stored
    flag is the predicate of the last evaluation, and a new meter starts
    from "not clipping". *)
Theorem clip_callbacks_on_edges (m : Meter) (frames : list (Q * Q))
  (H1 : onClip (m_options m) = true) (H2 : onClipRelease (m_options m) = true) :
  let ev := snd (clip_run m frames) in
  let ps := frame_predicates frames in
  ev = edge_events (clipping m) ps
  /\ List.length (filter (Event_eqb ClipEnter) ev) = rising_edges (clipping m) ps
  /\ List.length (filter (Event_eqb ClipExit) ev) = falling_edges (clipping m) ps
  /\ clipping (fst (clip_run m frames)) = last ps (clipping m)
  /\ (forall p, clipping (construct p) = false).
Proof.
  cbv zeta. destruct (clip_run_events frames m H1 H2) as (R1 & R2).
  rewrite R1, edge_events_rising, edge_events_falling.
  split; [reflexivity | split; [reflexivity | split; [reflexivity | ]]].
  split; [exact R2 | reflexivity].
Qed.

Lemma clip_callbacks_on_edges_witness :
  let m := construct callback_options in
  let frames := [(1, 0); (2, 0); (-1, 0); (-2, 0)] in
  onClip (m_options m) = true /\ onClipRelease (m_options m) = true
  /\ (let ev := snd (clip_run m frames) in
      let ps := frame_predicates frames in
      ev = edge_events (clipping m) ps
      /\ List.length (filter (Event_eqb ClipEnter) ev) = rising_edges (clipping m) ps
      /\ List.length (filter (Event_eqb ClipExit) ev) = falling_edges (clipping m) ps
      /\ clipping (fst (clip_run m frames)) = last ps (clipping m)
      /\ (forall p, clipping (construct p) = false)).
Proof.
  cbv zeta. split; [reflexivity | split; [reflexivity | ]].
  apply clip_callbacks_on_edges; reflexivity.
Defined.

(** ** Manual range and peak tracker *)

(** C7 (as stated): [setRange] clamps the peak tracker into the new bounds.
    It does not: in a reachable state holding a 0 dB peak,
    [setRange(-20, -10)] leaves the held peak at 0, above the new maximum. *)
Lemma setRange_leaves_peak_outside :
  let m1 := fst (setRange peak_at_zero (-20) (-10)) in
  peakDb m1 == 0 /\ dbMax (m_options m1) < peakDb m1.
Proof. cbv zeta. split; vm_compute; reflexivity. Qed.

(** C7 (amended): [setRange(min, max)] sets the bounds, clamps the target
    and current values into them ([Math.max(min, Math.min(max, v))], inside
    [[min, max]] whenever [min <= max]), rebuilds the scale once and records
    the rebuilt bounds; the sample history, the contraction targets and the
    whole peak tracker state are left as they were. *)
Theorem setRange_effect (m : Meter) (lo hi : Q) :
  let m' := fst (setRange m lo hi) in
  dbMin (m_options m') = lo /\ dbMax (m_options m') = hi
  /\ targetDb m' = js_max lo (js_min hi (targetDb m))
  /\ currentDb m' = js_max lo (js_min hi (currentDb m))
  /\ (lo <= hi -> lo <= targetDb m' <= hi /\ lo <= currentDb m' <= hi)
  /\ snd (setRange m lo hi) = [RebuildScale]
  /\ lastRebuiltDbMin m' = lo /\ lastRebuiltDbMax m' = hi
  /\ rangeSamples m' = rangeSamples m
  /\ autoRangeTargetMin m' = autoRangeTargetMin m
  /\ autoRangeTargetMax m' = autoRangeTargetMax m
  /\ peakDb m' = peakDb m /\ peakVisualDb m' = peakVisualDb m
  /\ peakHoldUntil m' = peakHoldUntil m /\ peakDecaying m' = peakDecaying m.
Proof.
  cbv zeta. cbn.
  assert (Hc : forall x, lo <= hi -> lo <= js_max lo (js_min hi x) <= hi).
  { intros x Hlh. split; [apply js_max_ge_l | ].
    destruct (js_max_cases lo (js_min hi x)) as [E | E]; rewrite E;
      [exact Hlh | apply js_min_le_l]. }
  repeat (split; [reflexivity | ]).
  split; [intro Hlh; split; apply Hc; exact Hlh | ].
  repeat split.
Qed.

(** C8 (as stated): the peak tracker is reset to [displayMin] by an
    explicit [resetRange()].  It is not: from the state holding a 0 dB
    peak, [resetRange()] keeps the held peak at 0 while [displayMin] is
    back at [-20]. *)
Lemma resetRange_keeps_peak :
  let m1 := fst (resetRange peak_at_zero) in
  peakDb m1 == 0 /\ ~ peakDb m1 == dbMin (m_options m1)
  /\ ~ peakVisualDb m1 == dbMin (m_options m1).
Proof.
  cbv zeta. split; [vm_compute; reflexivity | ].
  split; vm_compute; discriminate.
Qed.

(** C8 (amended): when a frame's peak block finds the tracker decaying and
    the decayed visual value at or below [displayMin + 0.05], it resets the
    held and visual values to [displayMin], clears [decaying] and sets the
    hold deadline to 0.  The tracker also starts at [displayMin] (idle) on
    construction.  [resetRange()] leaves the whole peak tracker state as it
    was. *)
Theorem peak_reset_points (Math_exp : Q -> Q) (m : Meter) (dt now held holdUntil : Q)
  (HS : showPeak (m_options m) && hasPeakNeedle m = true)
  (HD : peak_hold_state m now = (held, holdUntil, true))
  (HV : Qle_bool (peak_decay_visual Math_exp (m_options m) (peakVisualDb m) dt)
                 (dbMin (m_options m) + (5 # 100)) = true) :
  let m' := peak_step Math_exp m dt now in
  (peakDb m' = dbMin (m_options m') /\ peakVisualDb m' = dbMin (m_options m')
   /\ peakDecaying m' = false /\ peakHoldUntil m' = 0)
  /\ (forall p, let m0 := construct p in
        peakDb m0 = dbMin (m_options m0) /\ peakVisualDb m0 = dbMin (m_options m0)
        /\ peakDecaying m0 = false /\ peakHoldUntil m0 = 0)
  /\ (forall m0, let m1 := fst (resetRange m0) in
        peakDb m1 = peakDb m0 /\ peakVisualDb m1 = peakVisualDb m0
        /\ peakDecaying m1 = peakDecaying m0 /\ peakHoldUntil m1 = peakHoldUntil m0).
Proof.
  cbv zeta. split.
  - rewrite peak_step_options. unfold peak_step. rewrite HS, HD, HV.
    repeat split.
  - split; intros; repeat split.
Qed.

Lemma peak_reset_points_witness :
  let m := set_peak (construct peak_options) (-19) (-1996 # 100) 1 true in
  showPeak (m_options m) && hasPeakNeedle m = true
  /\ peak_hold_state m 5 = (-19, 1, true)
  /\ Qle_bool (peak_decay_visual exp_approx (m_options m) (peakVisualDb m) 16)
              (dbMin (m_options m) + (5 # 100)) = true
  /\ (let m' := peak_step exp_approx m 16 5 in
      (peakDb m' = dbMin (m_options m') /\ peakVisualDb m' = dbMin (m_options m')
       /\ peakDecaying m' = false /\ peakHoldUntil m' = 0)
      /\ (forall p, let m0 := construct p in
            peakDb m0 = dbMin (m_options m0) /\ peakVisualDb m0 = dbMin (m_options m0)
            /\ peakDecaying m0 = false /\ peakHoldUntil m0 = 0)
      /\ (forall m0, let m1 := fst (resetRange m0) in
            peakDb m1 = peakDb m0 /\ peakVisualDb m1 = peakVisualDb m0
            /\ peakDecaying m1 = peakDecaying m0 /\ peakHoldUntil m1 = peakHoldUntil m0)).
Proof.
  cbv zeta.
  split; [reflexivity | split; [vm_compute; reflexivity | split; [vm_compute; reflexivity | ]]].
  apply (peak_reset_points exp_approx
           (set_peak (construct peak_options) (-19) (-1996 # 100) 1 true) 16 5 (-19) 1);
    vm_compute; reflexivity.
Defined.

(** * Further properties of the code *)

(** ** Clamping and list extrema *)

Lemma clamp_within (lo hi x : Q) :
  lo <= hi -> lo <= js_max lo (js_min hi x) /\ js_max lo (js_min hi x) <= hi.
Proof.
  intro Hlh. split; [apply js_max_ge_l | ].
  destruct (js_max_cases lo (js_min hi x)) as [E | E]; rewrite E;
    [exact Hlh | apply js_min_le_l].
Qed.

Lemma js_min_mono (a b c d : Q) : a <= c -> b <= d -> js_min a b <= js_min c d.
Proof.
  intros H1 H2. unfold js_min at 2.
  destruct (Qle_bool c d); eapply Qle_trans;
    [apply js_min_le_l | exact H1 | apply js_min_le_r | exact H2].
Qed.

Lemma js_max_mono (a b c d : Q) : a <= c -> b <= d -> js_max a b <= js_max c d.
Proof.
  intros H1 H2. unfold js_max at 1.
  destruct (Qle_bool b a); eapply Qle_trans;
    [exact H1 | apply js_max_ge_l | exact H2 | apply js_max_ge_r].
Qed.

Lemma clamp_mono (lo hi a b : Q) :
  a <= b -> js_max lo (js_min hi a) <= js_max lo (js_min hi b).
Proof.
  intro H. apply js_max_mono; [apply Qle_refl | apply js_min_mono; [apply Qle_refl | exact H]].
Qed.

Lemma fold_min_le (xs : list Q) :
  forall acc, fold_left js_min xs acc <= acc /\ forall y, In y xs -> fold_left js_min xs acc <= y.
Proof.
  induction xs as [| x xs IH]; intro acc; cbn [fold_left].
  - split; [apply Qle_refl | intros y []].
  - destruct (IH (js_min acc x)) as (A & B). split.
    + eapply Qle_trans; [exact A | apply js_min_le_l].
    + intros y [<- | Hy]; [eapply Qle_trans; [exact A | apply js_min_le_r] | auto].
Qed.

Lemma fold_max_ge (xs : list Q) :
  forall acc, acc <= fold_left js_max xs acc /\ forall y, In y xs -> y <= fold_left js_max xs acc.
Proof.
  induction xs as [| x xs IH]; intro acc; cbn [fold_left].
  - split; [apply Qle_refl | intros y []].
  - destruct (IH (js_max acc x)) as (A & B). split.
    + eapply Qle_trans; [apply js_max_ge_l | exact A].
    + intros y [<- | Hy]; [eapply Qle_trans; [apply js_max_ge_r | exact A] | auto].
Qed.

Lemma list_min_le (d : Q) (ds : list Q) (y : Q) : In y (d :: ds) -> list_min d ds <= y.
Proof.
  unfold list_min. destruct (fold_min_le ds d) as (A & B).
  intros [<- | Hy]; auto.
Qed.

Lemma list_max_ge (d : Q) (ds : list Q) (y : Q) : In y (d :: ds) -> y <= list_max d ds.
Proof.
  unfold list_max. destruct (fold_max_ge ds d) as (A & B).
  intros [<- | Hy]; auto.
Qed.

(** ** Range mapper *)

(** X1: for a configuration with [displayMin <= displayMax] and
    [noiseFloor < displayMax], the mapping of [setValue] is
    non-decreasing in the raw input. *)
Theorem map_db_monotone (o : Options) (a b : Q)
  (H1 : dbMin o <= dbMax o) (H2 : noiseFloor o < dbMax o) (Hab : a <= b) :
  map_db o a <= map_db o b.
Proof.
  unfold map_db. apply clamp_mono.
  assert (HD : 0 <= / (dbMax o - noiseFloor o)).
  { apply Qinv_le_0_compat. lra. }
  assert (HW : 0 <= dbMax o - dbMin o) by lra.
  destruct (Qle_bool a (noiseFloor o)) eqn:Ea;
  destruct (Qle_bool b (noiseFloor o)) eqn:Eb; qbool.
  - apply Qle_refl.
  - assert (0 <= (b - noiseFloor o) / (dbMax o - noiseFloor o) * (dbMax o - dbMin o)).
    { apply Qmult_le_0_compat; [apply Qmult_le_0_compat; [lra | exact HD] | exact HW]. }
    lra.
  - exfalso. lra.
  - assert ((a - noiseFloor o) / (dbMax o - noiseFloor o) * (dbMax o - dbMin o)
            <= (b - noiseFloor o) / (dbMax o - noiseFloor o) * (dbMax o - dbMin o)).
    { apply Qmult_le_compat_r; [ | exact HW].
      apply Qmult_le_compat_r; [lra | exact HD]. }
    lra.
Qed.

Lemma map_db_monotone_witness :
  dbMin DEFAULTS <= dbMax DEFAULTS /\ noiseFloor DEFAULTS < dbMax DEFAULTS
  /\ -10 <= -5 /\ map_db DEFAULTS (-10) <= map_db DEFAULTS (-5).
Proof.
  split; [vm_compute; discriminate | split; [vm_compute; reflexivity | split; [vm_compute; discriminate | ]]].
  apply (map_db_monotone DEFAULTS (-10) (-5)); vm_compute; try discriminate; reflexivity.
Defined.

(** X2: when [noiseFloor < displayMax] and [displayMin <= displayMax + 1]
    before the call, [setValue] with a finite [db] only widens the bounds
    (the new [displayMin] is at most the old one, the new [displayMax] at
    least the old one) and the target it sets lies in
    [[displayMin, displayMax + 1]] of the bounds in force after the call. *)
Theorem setValue_target_bounded (m : Meter) (db now : Q)
  (Hnf : noiseFloor (m_options m) < dbMax (m_options m))
  (H : dbMin (m_options m) <= dbMax (m_options m) + 1) :
  let m' := fst (setValue m db now) in
  dbMin (m_options m') <= dbMin (m_options m) /\ dbMax (m_options m) <= dbMax (m_options m')
  /\ dbMin (m_options m') <= targetDb m' /\ targetDb m' <= dbMax (m_options m') + 1.
Proof.
  cbv zeta.
  assert (Hw : dbMin (m_options (fst (setValue m db now))) <= dbMin (m_options m)
               /\ dbMax (m_options m) <= dbMax (m_options (fst (setValue m db now)))).
  { rewrite setValue_options. destruct (autoRange (m_options m)).
    - destruct (autoRangeTrack_options m db now) as (_ & _ & Hmax & Hmin & _).
      split; assumption.
    - split; apply Qle_refl. }
  destruct Hw as [Hw1 Hw2]. split; [exact Hw1 | split; [exact Hw2 |]].
  rewrite setValue_targetDb. unfold map_db.
  apply clamp_within. lra.
Qed.

Lemma setValue_target_bounded_witness :
  noiseFloor (m_options (construct no_options)) < dbMax (m_options (construct no_options))
  /\ dbMin (m_options (construct no_options)) <= dbMax (m_options (construct no_options)) + 1
  /\ (let m' := fst (setValue (construct no_options) 12 0) in
      dbMin (m_options m') <= dbMin (m_options (construct no_options))
      /\ dbMax (m_options (construct no_options)) <= dbMax (m_options m')
      /\ dbMin (m_options m') <= targetDb m' /\ targetDb m' <= dbMax (m_options m') + 1).
Proof.
  split; [vm_compute; reflexivity | split; [vm_compute; discriminate | ]].
  apply setValue_target_bounded; vm_compute; [reflexivity | discriminate].
Defined.

(** ** Auto-range sample window *)

Lemma autoRangeTrack_samples (m : Meter) (db now : Q) :
  rangeSamples (fst (autoRangeTrack m db now)) = window_samples m db now.
Proof.
  unfold autoRangeTrack. destruct (desired_bounds m db now) as [[nmn nmx]|]; [ | reflexivity].
  destruct (Qlt_bool nmn _), (Qlt_bool _ nmx); reflexivity.
Qed.

Lemma window_has_sample (m : Meter) (db now : Q) :
  0 <= autoRangeWindow (m_options m) -> In (mkSample db now) (window_samples m db now).
Proof.
  intro Hw. unfold window_samples. apply filter_In. split.
  - apply in_or_app. right. left. reflexivity.
  - apply Qle_bool_iff. cbn [s_t].
    assert (0 <= autoRangeWindow (m_options m) * 1000)
      by (apply Qmult_le_0_compat; [exact Hw | discriminate]).
    lra.
Qed.

(** X3: with auto-range on and a non-negative window, the sample just fed
    lies on the scale after [setValue], with the margin to spare on both
    sides: [displayMin <= db - margin] and
    [db + margin <= displayMax]. *)
Theorem setValue_sample_on_scale (m : Meter) (db now : Q)
  (HA : autoRange (m_options m) = true)
  (Hw : 0 <= autoRangeWindow (m_options m)) :
  let o' := m_options (fst (setValue m db now)) in
  dbMin o' <= db - autoRangeMargin (m_options m)
  /\ db + autoRangeMargin (m_options m) <= dbMax o'.
Proof.
  cbv zeta. rewrite setValue_options, HA.
  pose proof (window_has_sample m db now Hw) as Hin.
  apply (in_map s_db) in Hin. cbn [s_db] in Hin.
  destruct (autoRangeTrack_options m db now) as (_ & _ & Hmax & Hmin & Hd).
  unfold desired_bounds in Hd.
  destruct (map s_db (window_samples m db now)) as [| d ds] eqn:E; [destruct Hin | ].
  destruct (Hd _ _ eq_refl) as (D1 & D2).
  pose proof (list_min_le d ds db Hin) as L1.
  pose proof (list_max_ge d ds db Hin) as L2.
  set (nmn := list_min d ds - autoRangeMargin (m_options m)) in *.
  set (nmx := list_max d ds + autoRangeMargin (m_options m)) in *.
  set (o' := m_options (fst (autoRangeTrack m db now))) in *.
  split.
  - destruct (Qlt_le_dec nmn (dbMin (m_options m))) as [Hl | Hl].
    + rewrite (D1 Hl). subst nmn. lra.
    + subst nmn. lra.
  - destruct (Qlt_le_dec (dbMax (m_options m)) nmx) as [Hl | Hl].
    + rewrite (D2 Hl). subst nmx. lra.
    + subst nmx. lra.
Qed.

Lemma setValue_sample_on_scale_witness :
  autoRange (m_options (construct autorange_options)) = true
  /\ 0 <= autoRangeWindow (m_options (construct autorange_options))
  /\ (let o' := m_options (fst (setValue (construct autorange_options) 10 0)) in
      dbMin o' <= 10 - autoRangeMargin (m_options (construct autorange_options))
      /\ 10 + autoRangeMargin (m_options (construct autorange_options)) <= dbMax o').
Proof.
  split; [reflexivity | split; [vm_compute; discriminate | ]].
  apply setValue_sample_on_scale; [reflexivity | vm_compute; discriminate].
Defined.

(** X4: with auto-range on, the sample history kept by [setValue] holds
    only samples no older than the window, each of them either an earlier
    sample or the one just fed; the new sample is kept when the window is
    non-negative. *)
Theorem setValue_window_pruned (m : Meter) (db now : Q)
  (HA : autoRange (m_options m) = true) :
  let ss := rangeSamples (fst (setValue m db now)) in
  (forall s, In s ss ->
     now - autoRangeWindow (m_options m) * 1000 <= s_t s
     /\ (In s (rangeSamples m) \/ s = mkSample db now))
  /\ (0 <= autoRangeWindow (m_options m) -> In (mkSample db now) ss).
Proof.
  cbv zeta.
  assert (E : rangeSamples (fst (setValue m db now)) = window_samples m db now).
  { unfold setValue. rewrite HA.
    rewrite <- (autoRangeTrack_samples m db now).
    destruct (autoRangeTrack m db now). reflexivity. }
  rewrite E. split.
  - intros s Hs. unfold window_samples in Hs. apply filter_In in Hs as (Hs & Ht).
    apply Qle_bool_iff in Ht. split; [exact Ht | ].
    apply in_app_or in Hs as [Hs | [Hs | []]]; [left; exact Hs | right; symmetry; exact Hs].
  - apply window_has_sample.
Qed.

Lemma setValue_window_pruned_witness :
  autoRange (m_options (construct autorange_options)) = true
  /\ (let ss := rangeSamples (fst (setValue (construct autorange_options) (-6) 500)) in
      (forall s, In s ss ->
         500 - autoRangeWindow (m_options (construct autorange_options)) * 1000 <= s_t s
         /\ (In s (rangeSamples (construct autorange_options)) \/ s = mkSample (-6) 500))
      /\ (0 <= autoRangeWindow (m_options (construct autorange_options))
          -> In (mkSample (-6) 500) ss)).
Proof.
  split; [reflexivity | ].
  apply setValue_window_pruned. reflexivity.
Defined.

(** ** Frame structure *)

Lemma updateClipState_fields (m : Meter) (db : Q) :
  let m' := fst (updateClipState m db) in
  clipping m' = Qlt_bool (clipThreshold (m_options m)) db
  /\ m_options m' = m_options m /\ currentDb m' = currentDb m
  /\ targetDb m' = targetDb m /\ rangeSamples m' = rangeSamples m
  /\ lastRebuiltDbMin m' = lastRebuiltDbMin m /\ lastRebuiltDbMax m' = lastRebuiltDbMax m
  /\ peakDb m' = peakDb m
  /\ (forall e, In e (snd (updateClipState m db)) -> e = ClipEnter \/ e = ClipExit)
  /\ (Qlt_bool (clipThreshold (m_options m)) db = clipping m -> snd (updateClipState m db) = []).
Proof.
  cbv zeta. unfold updateClipState.
  destruct (Bool.eqb (Qlt_bool (clipThreshold (m_options m)) db) (clipping m)) eqn:E.
  - apply Bool.eqb_prop in E. cbn [fst snd].
    repeat (split; [first [symmetry; exact E | reflexivity] | ]).
    split; [intros e [] | reflexivity].
  - cbn [fst snd]. repeat (split; [reflexivity | ]). split.
    + intros e He. apply in_app_or in He as [He | He];
        [destruct (_ && onClip _) | destruct (_ && onClipRelease _)];
        cbn in He; intuition (subst; auto).
    + intro H. rewrite H, Bool.eqb_reflx in E. discriminate.
Qed.

Lemma peak_step_fields (Math_exp : Q -> Q) (m : Meter) (dt now : Q) :
  let m' := peak_step Math_exp m dt now in
  m_options m' = m_options m /\ currentDb m' = currentDb m /\ clipping m' = clipping m
  /\ targetDb m' = targetDb m /\ rangeSamples m' = rangeSamples m
  /\ lastRebuiltDbMin m' = lastRebuiltDbMin m /\ lastRebuiltDbMax m' = lastRebuiltDbMax m.
Proof.
  cbv zeta. unfold peak_step.
  destruct (showPeak (m_options m) && hasPeakNeedle m); [ | repeat split].
  destruct (peak_hold_state m now) as [[held hu] dec].
  destruct dec; [destruct (Qle_bool _ _) | ]; repeat split.
Qed.

Lemma contract_events (m : Meter) (c : Q) :
  forall e, In e (snd (contract m c)) -> e = RebuildScale.
Proof.
  unfold contract. destruct (autoRange (m_options m)); [ | intros e []].
  cbv zeta. destruct (_ || _); cbn [snd]; [intros e [<- | []]; reflexivity | intros e []].
Qed.

Lemma contract_fields (m : Meter) (c : Q) :
  let m' := fst (contract m c) in
  currentDb m' = currentDb m /\ targetDb m' = targetDb m /\ clipping m' = clipping m
  /\ rangeSamples m' = rangeSamples m
  /\ autoRangeTargetMin m' = autoRangeTargetMin m /\ autoRangeTargetMax m' = autoRangeTargetMax m
  /\ (autoRange (m_options m) = false -> m' = m).
Proof.
  cbv zeta. unfold contract.
  destruct (autoRange (m_options m)); [ | repeat split].
  cbv zeta. destruct (_ || _); cbn [fst]; (repeat (split; [reflexivity | ])); discriminate.
Qed.

(** How a frame's result is put together: the bounds and rebuild marks the
    contraction leaves, the pinned needle value, and the clip flag computed
    from it. *)
Lemma animate_fields (Math_exp : Q -> Q) (m : Meter) (timestamp now : Q) :
  let dt := js_min (timestamp - match lastTime m with Some t => t | None => timestamp end) 100 in
  let m1 := fst (contract (set_lastTime m (Some timestamp)) dt) in
  let o := m_options m1 in
  let cur := ballistics_step Math_exp o (targetDb m1) (currentDb m1) dt in
  let c := js_max (dbMin o) (js_min (dbMax o + (1 # 2)) cur) in
  let m' := fst (animate Math_exp m timestamp now) in
  m_options m' = o /\ currentDb m' = c
  /\ clipping m' = Qlt_bool (clipThreshold o) c
  /\ targetDb m' = targetDb m /\ rangeSamples m' = rangeSamples m1
  /\ lastRebuiltDbMin m' = lastRebuiltDbMin m1 /\ lastRebuiltDbMax m' = lastRebuiltDbMax m1
  /\ (forall e, In e (snd (animate Math_exp m timestamp now)) ->
        In e (snd (contract (set_lastTime m (Some timestamp)) dt))
        \/ ((e = ClipEnter \/ e = ClipExit) /\ clipping m' <> clipping m)).
Proof.
  cbv zeta. unfold animate.
  pose proof (contract_fields (set_lastTime m (Some timestamp))
                (js_min (timestamp - match lastTime m with Some t => t | None => timestamp end) 100)) as CF.
  destruct (contract _ _) as [m1 ev1]. cbn [fst snd] in *.
  destruct CF as (F1 & F2 & F3 & _).
  set (m2 := set_currentDb m1 _).
  pose proof (updateClipState_fields m2 (currentDb m2)) as UF.
  destruct (updateClipState m2 (currentDb m2)) as [m3 ev2]. cbn [fst snd] in *.
  destruct UF as (U1 & U2 & U3 & U4 & U5 & U6 & U7 & _ & U9 & U10).
  pose proof (peak_step_fields Math_exp m3
                (js_min (timestamp - match lastTime m with Some t => t | None => timestamp end) 100) now)
    as (P1 & P2 & P3 & P4 & P5 & P6 & P7).
  rewrite P1, P2, P3, P4, P5, P6, P7, U1, U2, U3, U4, U5, U6, U7.
  subst m2. cbn [m_options currentDb targetDb rangeSamples lastRebuiltDbMin lastRebuiltDbMax set_currentDb].
  rewrite F2.
  repeat (split; [reflexivity | ]).
  intros e He. apply in_app_or in He as [He | He]; [left; exact He | right].
  split; [exact (U9 e He) | ].
  intro Hc. rewrite U10 in He; [destruct He | ].
  cbn [m_options currentDb clipping set_currentDb]. rewrite F2, F3. exact Hc.
Qed.

Lemma with_range_dbMin (o : Options) (lo hi : Q) : dbMin (with_range o lo hi) = lo.
Proof. reflexivity. Qed.

Lemma with_range_dbMax (o : Options) (lo hi : Q) : dbMax (with_range o lo hi) = hi.
Proof. reflexivity. Qed.

Lemma Qabs_self_sub_lt1 (x : Q) : Qabs (x - x) < 1.
Proof. setoid_replace (x - x) with 0 by ring. reflexivity. Qed.

(** The rebuild marks after a contraction step are within 1 dB of the
    bounds it leaves. *)
Lemma contract_marks (m : Meter) (c : Q) (HA : autoRange (m_options m) = true) :
  let m' := fst (contract m c) in
  Qabs (dbMin (m_options m') - lastRebuiltDbMin m') < 1
  /\ Qabs (dbMax (m_options m') - lastRebuiltDbMax m') < 1.
Proof.
  cbv zeta. unfold contract. rewrite HA. cbv zeta.
  destruct (_ || _) eqn:E; cbn [fst].
  - cbn [m_options lastRebuiltDbMin lastRebuiltDbMax set_lastRebuilt set_options].
    rewrite with_range_dbMin, with_range_dbMax.
    split; apply Qabs_self_sub_lt1.
  - apply orb_false_iff in E as [E1 E2]. qbool.
    cbn [m_options lastRebuiltDbMin lastRebuiltDbMax set_options] in *.
    rewrite with_range_dbMin, with_range_dbMax. split; assumption.
Qed.


(** X5: one ballistics step never overshoots: given that the host's
    [Math.exp] returns a value in [[0, 1]] for the attack and release
    exponents, the new needle value lies between the current value and the
    target. *)
Theorem ballistics_step_between (Math_exp : Q -> Q) (o : Options) (target current dt : Q)
  (HA : 0 <= Math_exp (- dt / attackTime o) <= 1)
  (HR : 0 <= Math_exp (- dt / releaseTime o) <= 1) :
  let r := ballistics_step Math_exp o target current dt in
  (current <= target -> current <= r /\ r <= target)
  /\ (target <= current -> target <= r /\ r <= current).
Proof.
  cbv zeta. unfold ballistics_step.
  destruct (ballistics o); [ | split; intro; lra].
  destruct (Qlt_bool (Qabs (target - current)) (5 # 1000)); [split; intro; lra | ].
  cbv zeta.
  assert (Hf : 0 <= 1 - Math_exp (- dt / (if Qlt_bool 0 (target - current)
                                           then attackTime o else releaseTime o))
               <= 1) by (destruct (Qlt_bool 0 _); lra).
  set (f := 1 - Math_exp _) in *.
  set (d := target - current).
  assert (E : target == current + d) by (subst d; ring).
  destruct Hf as [Hf0 Hf1].
  split; intro Hle.
  - assert (Hd : 0 <= d) by (subst d; lra).
    assert (0 <= d * f) by (apply Qmult_le_0_compat; assumption).
    assert (d * f <= d) by (rewrite <- (Qmult_1_r d) at 2; apply Qmult_le_compat_nonneg; split; first [assumption | apply Qle_refl]).
    lra.
  - assert (Hd : 0 <= - d) by (subst d; lra).
    assert (0 <= - d * f) by (apply Qmult_le_0_compat; assumption).
    assert (- d * f <= - d) by (rewrite <- (Qmult_1_r (- d)) at 2; apply Qmult_le_compat_nonneg; split; first [assumption | apply Qle_refl]).
    setoid_replace (current + d * f) with (current - (- d * f)) by ring.
    lra.
Qed.

Lemma ballistics_step_between_witness :
  (0 <= exp_approx (- 16 / attackTime DEFAULTS) <= 1)
  /\ (0 <= exp_approx (- 16 / releaseTime DEFAULTS) <= 1)
  /\ (let r := ballistics_step exp_approx DEFAULTS 0 (-20) 16 in
      ((-20) <= 0 -> (-20) <= r /\ r <= 0) /\ (0 <= (-20) -> 0 <= r /\ r <= (-20))).
Proof.
  split; [split; vm_compute; discriminate | ].
  split; [split; vm_compute; discriminate | ].
  apply ballistics_step_between; split; vm_compute; discriminate.
Defined.



(** X7: after a frame the clip flag equals [currentDb > clipThreshold] for
    the pinned needle value, and a frame that leaves the flag as it was emits
    no clip event (only scale rebuilds). *)
Theorem animate_clip_flag (Math_exp : Q -> Q) (m : Meter) (timestamp now : Q) :
  let m' := fst (animate Math_exp m timestamp now) in
  clipping m' = Qlt_bool (clipThreshold (m_options m')) (currentDb m')
  /\ (clipping m' = clipping m ->
      forall e, In e (snd (animate Math_exp m timestamp now)) -> e = RebuildScale).
Proof.
  cbv zeta.
  destruct (animate_fields Math_exp m timestamp now) as (F1 & F2 & F3 & _ & _ & _ & _ & F8).
  cbv zeta in *. rewrite F1, F2, F3. split; [reflexivity | ].
  intros Hc e He. destruct (F8 e He) as [He' | [_ Hne]].
  - exact (contract_events _ _ e He').
  - rewrite F3 in Hne. contradiction.
Qed.

(** X8: with auto-range on, after every frame each bound is less than 1 dB
    away from the bound the scale was last rebuilt for. *)
Theorem animate_rebuild_marks_close (Math_exp : Q -> Q) (m : Meter) (timestamp now : Q)
  (HA : autoRange (m_options m) = true) :
  let m' := fst (animate Math_exp m timestamp now) in
  Qabs (dbMin (m_options m') - lastRebuiltDbMin m') < 1
  /\ Qabs (dbMax (m_options m') - lastRebuiltDbMax m') < 1.
Proof.
  cbv zeta.
  destruct (animate_fields Math_exp m timestamp now)
    as (F1 & _ & _ & _ & _ & F6 & F7 & _).
  cbv zeta in *. rewrite F1, F6, F7.
  apply contract_marks. exact HA.
Qed.

Lemma animate_rebuild_marks_close_witness :
  let m := set_autoRangeTargets
             (set_lastTime (construct autorange_options) (Some 1000)) (-15) 0 in
  autoRange (m_options m) = true
  /\ (let m' := fst (animate exp_approx m 1016 1016) in
      Qabs (dbMin (m_options m') - lastRebuiltDbMin m') < 1
      /\ Qabs (dbMax (m_options m') - lastRebuiltDbMax m') < 1).
Proof.
  cbv zeta. split; [reflexivity | ].
  apply animate_rebuild_marks_close. reflexivity.
Defined.

(** X9: the frame time step is capped at 100 ms, so however long the gap
    since the previous frame, one frame moves each auto-range bound by at
    most 0.1 dB (displayMin up, displayMax down). *)
Theorem animate_bound_step_capped (Math_exp : Q -> Q) (m : Meter) (timestamp now : Q)
  (HA : autoRange (m_options m) = true)
  (Ht : 0 <= timestamp - pick (lastTime m) timestamp) :
  let o := m_options m in
  let o' := m_options (fst (animate Math_exp m timestamp now)) in
  dbMin o <= dbMin o' /\ dbMin o' <= dbMin o + (1 # 10)
  /\ dbMax o - (1 # 10) <= dbMax o' /\ dbMax o' <= dbMax o.
Proof.
  cbv zeta. rewrite animate_options.
  set (e := timestamp - pick (lastTime m) timestamp) in *.
  set (c := js_min e 100).
  assert (Hc0 : 0 <= c).
  { subst c. destruct (js_min_cases e 100) as [H | H]; rewrite H; [exact Ht | discriminate]. }
  assert (Hc1 : c / 1000 <= 100 / 1000) by (apply div1000_mono, js_min_le_r).
  assert (Hk : 100 / 1000 == 1 # 10) by reflexivity.
  destruct (contract_bounds (set_lastTime m (Some timestamp)) c HA Hc0)
    as ((A1 & A2) & _ & _ & (A5 & A6) & _ & _).
  cbn [m_options set_lastTime] in *.
  set (o' := m_options (fst (contract (set_lastTime m (Some timestamp)) c))) in *.
  set (kc := c / 1000) in *. set (k := 100 / 1000) in *.
  lra.
Qed.

Lemma animate_bound_step_capped_witness :
  let m := set_autoRangeTargets
             (set_lastTime (construct autorange_options) (Some 1000)) (-15) 0 in
  autoRange (m_options m) = true
  /\ 0 <= 6000 - pick (lastTime m) 6000
  /\ (let o := m_options m in
      let o' := m_options (fst (animate exp_approx m 6000 6000)) in
      dbMin o <= dbMin o' /\ dbMin o' <= dbMin o + (1 # 10)
      /\ dbMax o - (1 # 10) <= dbMax o' /\ dbMax o' <= dbMax o).
Proof.
  cbv zeta.
  split; [reflexivity | split; [vm_compute; discriminate | ]].
  apply animate_bound_step_capped; [reflexivity | vm_compute; discriminate].
Defined.

(** X10: [pause()] then [resume()] clears the frame clock, so the first
    frame after resuming has a zero time step: it leaves both bounds where
    they were, whatever the time spent paused. *)
Theorem resume_first_frame_keeps_bounds (Math_exp : Q -> Q) (st : bool * Meter)
  (timestamp now : Q) :
  let m := snd st in
  let m' := fst (animate Math_exp (snd (resume (pause st))) timestamp now) in
  dbMin (m_options m') == dbMin (m_options m)
  /\ dbMax (m_options m') == dbMax (m_options m).
Proof.
  destruct st as [p m]. cbv zeta. cbn [pause resume snd].
  rewrite animate_options. cbn [lastTime set_lastTime pick].
  set (c := js_min (timestamp - timestamp) 100).
  assert (Hc : c == 0).
  { subst c. unfold js_min.
    replace (Qle_bool (timestamp - timestamp) 100) with true; [ring | ].
    symmetry. apply Qle_bool_iff. setoid_replace (timestamp - timestamp) with 0 by ring.
    discriminate. }
  destruct (autoRange (m_options m)) eqn:HA.
  - assert (Hc0 : 0 <= c) by (rewrite Hc; apply Qle_refl).
    assert (HA' : autoRange (m_options (set_lastTime (set_lastTime m None) (Some timestamp))) = true)
      by exact HA.
    destruct (contract_bounds _ c HA' Hc0) as ((A1 & A2) & _ & _ & (A5 & A6) & _ & _).
    cbn [m_options set_lastTime] in *.
    assert (Hk : c / 1000 == 0) by (rewrite Hc; reflexivity).
    set (k := c / 1000) in *.
    split; lra.
  - destruct (contract_fields (set_lastTime (set_lastTime m None) (Some timestamp)) c)
      as (_ & _ & _ & _ & _ & _ & F7).
    rewrite F7 by exact HA. split; reflexivity.
Qed.


(** X12: the peak block never lowers the held peak, except when it resets
    the whole tracker to [displayMin] (held and visual values at
    [displayMin], deadline 0, not decaying). *)
Theorem peak_step_never_lowers (Math_exp : Q -> Q) (m : Meter) (dt now : Q) :
  let m' := peak_step Math_exp m dt now in
  peakDb m <= peakDb m'
  \/ (peakDb m' = dbMin (m_options m) /\ peakVisualDb m' = dbMin (m_options m)
      /\ peakHoldUntil m' = 0 /\ peakDecaying m' = false).
Proof.
  cbv zeta. unfold peak_step, peak_hold_state.
  destruct (showPeak (m_options m) && hasPeakNeedle m); [ | left; apply Qle_refl].
  destruct (Qlt_bool (peakDb m) (targetDb m)) eqn:E; qbool; cbv beta iota zeta;
    repeat match goal with |- context [if ?b then _ else _] => destruct b end;
    cbn [peakDb peakVisualDb peakHoldUntil peakDecaying set_peak];
    first [solve [right; repeat split]
          | left; first [apply Qle_refl | apply Qlt_le_weak; exact E]].
Qed.

(** X13: a target above the held peak is captured in the frame: the held
    value becomes the target, the hold deadline is [now + peakHoldTime] and
    the tracker is not decaying.  Given a non-zero [peakAttackTime] and a
    [Math.exp] in [[0, 1]] for the attack exponent, the visual peak moves
    toward the target without passing it, from below as from above. *)
Theorem peak_step_capture (Math_exp : Q -> Q) (m : Meter) (dt now : Q)
  (HS : showPeak (m_options m) && hasPeakNeedle m = true)
  (Hgt : peakDb m < targetDb m)
  (Hh : 0 < peakHoldTime (m_options m)) :
  let m' := peak_step Math_exp m dt now in
  peakDb m' = targetDb m
  /\ peakHoldUntil m' = now + peakHoldTime (m_options m)
  /\ peakDecaying m' = false
  /\ (0 <= Math_exp (- dt / peakAttackTime (m_options m)) <= 1 ->
      ~ peakAttackTime (m_options m) == 0 ->
      (peakVisualDb m <= targetDb m ->
       peakVisualDb m <= peakVisualDb m' /\ peakVisualDb m' <= targetDb m)
      /\ (targetDb m <= peakVisualDb m ->
          targetDb m <= peakVisualDb m' /\ peakVisualDb m' <= peakVisualDb m)).
Proof.
  cbv zeta. unfold peak_step, peak_hold_state. rewrite HS.
  replace (Qlt_bool (peakDb m) (targetDb m)) with true by (symmetry; apply Qlt_bool_iff; exact Hgt).
  cbv zeta.
  replace (Qle_bool (now + peakHoldTime (m_options m)) now) with false
    by (symmetry; apply Qle_bool_false; lra).
  rewrite !andb_false_r. cbv zeta.
  cbn [peakDb peakVisualDb peakHoldUntil peakDecaying set_peak].
  split; [reflexivity | split; [reflexivity | split; [reflexivity | ]]].
  intros [Hf0 Hf1] _.
  set (f := 1 - Math_exp _).
  assert (Hf : 0 <= f <= 1) by (subst f; lra).
  split; intro Hv.
  - set (d := targetDb m - peakVisualDb m).
    assert (Hd : 0 <= d) by (subst d; lra).
    assert (0 <= d * f) by (apply Qmult_le_0_compat; lra).
    assert (d * f <= d * 1)
      by (apply Qmult_le_compat_nonneg; split; first [assumption | apply Qle_refl | lra]).
    subst d. lra.
  - assert (Hneg : (targetDb m - peakVisualDb m) * f == - ((peakVisualDb m - targetDb m) * f))
      by ring.
    rewrite Hneg.
    set (d := peakVisualDb m - targetDb m).
    assert (Hd : 0 <= d) by (subst d; lra).
    assert (0 <= d * f) by (apply Qmult_le_0_compat; lra).
    assert (d * f <= d * 1)
      by (apply Qmult_le_compat_nonneg; split; first [assumption | apply Qle_refl | lra]).
    subst d. lra.
Qed.

Lemma peak_step_capture_witness :
  let m := set_targetDb (construct peak_options) (-3) in
  showPeak (m_options m) && hasPeakNeedle m = true
  /\ peakDb m < targetDb m
  /\ 0 < peakHoldTime (m_options m)
  /\ (let m' := peak_step exp_approx m 16 5000 in
      peakDb m' = targetDb m
      /\ peakHoldUntil m' = 5000 + peakHoldTime (m_options m)
      /\ peakDecaying m' = false
      /\ (0 <= exp_approx (- 16 / peakAttackTime (m_options m)) <= 1 ->
          ~ peakAttackTime (m_options m) == 0 ->
          (peakVisualDb m <= targetDb m ->
           peakVisualDb m <= peakVisualDb m' /\ peakVisualDb m' <= targetDb m)
          /\ (targetDb m <= peakVisualDb m ->
              targetDb m <= peakVisualDb m' /\ peakVisualDb m' <= peakVisualDb m))).
Proof.
  cbv zeta.
  split; [reflexivity | split; [vm_compute; reflexivity | split; [vm_compute; reflexivity | ]]].
  apply peak_step_capture; [reflexivity | vm_compute; reflexivity | vm_compute; reflexivity].
Defined.

(** ** Geometry and the scale *)

(** X14: [_dbToAngleDeg] maps [displayMin] to [ANGLE_MIN] (220 degrees),
    [displayMax] to [ANGLE_MIN + SWEEP] (320 degrees), and is increasing in
    between, whenever [displayMin < displayMax]. *)
Theorem dbToAngleDeg_sweep (o : Options) (H : dbMin o < dbMax o) :
  dbToAngleDeg o (dbMin o) == 220
  /\ dbToAngleDeg o (dbMax o) == 320
  /\ (forall a b, a <= b -> dbToAngleDeg o a <= dbToAngleDeg o b).
Proof.
  unfold dbToAngleDeg, ANGLE_MIN, SWEEP.
  split; [field; intro E; lra | split; [field; intro E; lra | ]].
  intros a b Hab. unfold Qdiv.
  apply Qplus_le_compat; [apply Qle_refl | ].
  apply Qmult_le_compat_r; [ | discriminate].
  apply Qmult_le_compat_r; [lra | ].
  apply Qlt_le_weak, Qinv_lt_0_compat. lra.
Qed.

Lemma dbToAngleDeg_sweep_witness :
  dbMin DEFAULTS < dbMax DEFAULTS
  /\ dbToAngleDeg DEFAULTS (dbMin DEFAULTS) == 220
  /\ dbToAngleDeg DEFAULTS (dbMax DEFAULTS) == 320
  /\ (forall a b, a <= b -> dbToAngleDeg DEFAULTS a <= dbToAngleDeg DEFAULTS b).
Proof.
  split; [reflexivity | ].
  apply dbToAngleDeg_sweep. reflexivity.
Defined.

(** X15: the two scale arcs of [_buildScale] cover the scale from
    [displayMin] to [displayMax] without gap or overlap, black up to the
    clip threshold and red above it: one red arc when the threshold is at
    or below [displayMin], one black arc when it is at or above
    [displayMax], else a black arc ending and a red arc starting at the
    threshold. *)
Theorem scale_arcs_partition (o : Options) (H : dbMin o < dbMax o) :
  (clipThreshold o <= dbMin o /\ scale_arcs o = [ArcPath Red (dbMin o) (dbMax o)])
  \/ (dbMax o <= clipThreshold o /\ scale_arcs o = [ArcPath Black (dbMin o) (dbMax o)])
  \/ (dbMin o < clipThreshold o /\ clipThreshold o < dbMax o
      /\ scale_arcs o = [ArcPath Black (dbMin o) (clipThreshold o);
                         ArcPath Red (clipThreshold o) (dbMax o)]).
Proof.
  unfold scale_arcs, js_min, js_max. cbv zeta.
  destruct (Qle_bool (dbMax o) (clipThreshold o)) eqn:E1;
    [destruct (Qle_bool (dbMax o) (dbMin o)) eqn:E2
    | destruct (Qle_bool (clipThreshold o) (dbMin o)) eqn:E2];
    repeat match goal with |- context [if ?b then _ else _] => destruct b eqn:? end;
    qbool;
    first [ exfalso; lra
          | left; split; [lra | reflexivity]
          | right; left; split; [lra | reflexivity]
          | right; right; split; [lra | split; [lra | reflexivity]] ].
Qed.

Lemma scale_arcs_partition_witness :
  dbMin DEFAULTS < dbMax DEFAULTS
  /\ ((clipThreshold DEFAULTS <= dbMin DEFAULTS
       /\ scale_arcs DEFAULTS = [ArcPath Red (dbMin DEFAULTS) (dbMax DEFAULTS)])
      \/ (dbMax DEFAULTS <= clipThreshold DEFAULTS
          /\ scale_arcs DEFAULTS = [ArcPath Black (dbMin DEFAULTS) (dbMax DEFAULTS)])
      \/ (dbMin DEFAULTS < clipThreshold DEFAULTS /\ clipThreshold DEFAULTS < dbMax DEFAULTS
          /\ scale_arcs DEFAULTS = [ArcPath Black (dbMin DEFAULTS) (clipThreshold DEFAULTS);
                                    ArcPath Red (clipThreshold DEFAULTS) (dbMax DEFAULTS)])).
Proof.
  split; [reflexivity | ].
  apply scale_arcs_partition. reflexivity.
Defined.

Lemma Z_range_nil (a b : Z) : (b < a)%Z -> Z_range a b = [].
Proof.
  intro H. unfold Z_range. replace (Z.to_nat (b - a + 1)) with O by lia. reflexivity.
Qed.

Lemma Z_range_cons (a b : Z) : (a <= b)%Z -> Z_range a b = a :: Z_range (a + 1) b.
Proof.
  intro H. unfold Z_range.
  replace (Z.to_nat (b - a + 1)) with (S (Z.to_nat (b - (a + 1) + 1))) by lia.
  cbn [seq map]. f_equal; [lia | ].
  rewrite <- seq_shift, map_map. apply map_ext. intro k. lia.
Qed.

Lemma In_Z_range (a b k : Z) : In k (Z_range a b) <-> (a <= k <= b)%Z.
Proof.
  unfold Z_range. rewrite in_map_iff. split.
  - intros [i [<- Hi]]. apply in_seq in Hi. lia.
  - intro H. exists (Z.to_nat (k - a)). split; [lia | ]. apply in_seq. lia.
Qed.

Lemma inject_Z_le_floor (d : Z) (x : Q) : inject_Z d <= x <-> (d <= Qfloor x)%Z.
Proof.
  split; intro H.
  - rewrite <- (Qfloor_Z d). apply Qfloor_resp_le. exact H.
  - apply Qle_trans with (inject_Z (Qfloor x)); [rewrite <- Zle_Qle; exact H | apply Qfloor_le].
Qed.

Lemma ceiling_le_inject_Z (d : Z) (x : Q) : x <= inject_Z d <-> (Qceiling x <= d)%Z.
Proof.
  split; intro H.
  - rewrite <- (Qceiling_Z d). apply Qceiling_resp_le. exact H.
  - apply Qle_trans with (inject_Z (Qceiling x)); [apply Qle_ceiling | rewrite <- Zle_Qle; exact H].
Qed.

Lemma default_tick_loop_range (o : Options) (majors : list Z) (n : nat) :
  forall d, (Z.to_nat (Qfloor (dbMax o) - d + 1) <= n)%nat ->
  default_tick_loop o majors d n = map (default_tick o majors) (Z_range d (Qfloor (dbMax o))).
Proof.
  induction n as [ | n IH]; intros d Hn.
  - rewrite Z_range_nil by lia. reflexivity.
  - cbn [default_tick_loop].
    destruct (Qle_bool (inject_Z d) (dbMax o)) eqn:E.
    + apply Qle_bool_iff, inject_Z_le_floor in E.
      rewrite Z_range_cons by exact E. cbn [map].
      rewrite IH by lia. reflexivity.
    + apply Qle_bool_false in E.
      assert (Qfloor (dbMax o) < d)%Z.
      { destruct (Z_lt_le_dec (Qfloor (dbMax o)) d) as [L | L]; [exact L | ].
        apply inject_Z_le_floor in L. lra. }
      rewrite Z_range_nil by lia. reflexivity.
Qed.

(** X16: [_buildDefaultScale] draws one tick at every integer dB from
    [ceil(displayMin)] to [floor(displayMax)], in increasing order, major
    exactly at the visible standard VU positions and red exactly above the
    clip threshold, followed by the labels of the visible major positions. *)
Theorem buildDefaultScale_ticks (o : Options) :
  buildDefaultScale o
  = map (default_tick o (majorTicks o)) (Z_range (Qceiling (dbMin o)) (Qfloor (dbMax o)))
    ++ map (default_label o) (majorTicks o).
Proof.
  unfold buildDefaultScale. rewrite default_tick_loop_range; [reflexivity | ].
  unfold default_tick_fuel. lia.
Qed.

Lemma majorTicks_in_range (o : Options) (d : Z) :
  In d (majorTicks o) -> In d (Z_range (Qceiling (dbMin o)) (Qfloor (dbMax o))).
Proof.
  unfold majorTicks. rewrite filter_In. intros [_ Hd].
  apply andb_true_iff in Hd as [H1 H2]. qbool.
  apply In_Z_range. split.
  - apply ceiling_le_inject_Z. exact H1.
  - apply inject_Z_le_floor. exact H2.
Qed.

(** X17: in the default scale a label is drawn at a position exactly when a
    major tick is drawn there, in the same colour. *)
Theorem default_labels_on_major_ticks (o : Options) (p : Q) (c : Color) :
  (exists txt, In (TickLabel p txt c) (buildDefaultScale o))
  <-> In (TickLine p true c) (buildDefaultScale o).
Proof.
  rewrite buildDefaultScale_ticks. split.
  - intros [txt Hin]. apply in_app_or in Hin as [Hin | Hin];
      apply in_map_iff in Hin as [d [Hd Hin]]; [discriminate Hd | ].
    unfold default_label in Hd. injection Hd as <- _ <-.
    apply in_or_app. left. apply in_map_iff. exists d. split.
    + unfold default_tick. f_equal.
      apply existsb_exists. exists d. split; [exact Hin | apply Z.eqb_refl].
    + apply majorTicks_in_range. exact Hin.
  - intro Hin. apply in_app_or in Hin as [Hin | Hin];
      apply in_map_iff in Hin as [d [Hd Hin]]; [ | discriminate Hd].
    unfold default_tick in Hd. injection Hd as <- Hm <-.
    apply existsb_exists in Hm as [d' [Hd' E]]. apply Z.eqb_eq in E. subst d'.
    eexists. apply in_or_app. right. apply in_map_iff. exists d. split; [ | exact Hd'].
    reflexivity.
Qed.

Lemma smeter_minor_loop_spec (o : Options) (majors : list Z) (n : nat) :
  forall d, dbMin o <= d ->
  forall p maj c, In (TickLine p maj c) (smeter_minor_loop o majors d n) ->
  dbMin o <= p /\ p <= dbMax o /\ maj = false
  /\ (forall t, In t majors -> ~ inject_Z t == p).
Proof.
  induction n as [ | n IH]; intros d Hd p maj c Hin; [destruct Hin | ].
  cbn [smeter_minor_loop] in Hin.
  destruct (Qle_bool d (dbMax o)) eqn:E; [ | destruct Hin].
  apply Qle_bool_iff in E.
  apply in_app_or in Hin as [Hin | Hin].
  - destruct (existsb (fun t => Qeq_bool (inject_Z t) d) majors) eqn:Ex; [destruct Hin | ].
    destruct Hin as [Hin | []]. injection Hin as <- <- _.
    split; [exact Hd | split; [exact E | split; [reflexivity | ]]].
    intros t Ht Heq. apply Bool.not_true_iff_false in Ex. apply Ex.
    apply existsb_exists. exists t. split; [exact Ht | apply Qeq_bool_iff; exact Heq].
  - apply (IH (d + 6)) in Hin; [exact Hin | lra].
Qed.

(** X18: every tick of the S-meter scale lies within
    [[displayMin, displayMax]], and no 6 dB minor tick is drawn at the
    position of a visible S-unit tick. *)
Theorem smeter_ticks_in_range (o : Options) (p : Q) (maj : bool) (c : Color)
  (Hin : In (TickLine p maj c) (buildSmeterScale o)) :
  dbMin o <= p /\ p <= dbMax o
  /\ (maj = false -> forall t, In t (smeter_inRange o) -> ~ inject_Z (fst t) == p).
Proof.
  unfold buildSmeterScale in Hin.
  apply in_app_or in Hin as [Hin | Hin].
  - apply smeter_minor_loop_spec in Hin as (H1 & H2 & _ & H4); [ | apply Qle_refl].
    split; [exact H1 | split; [exact H2 | ]].
    intros _ t Ht. apply H4. apply in_map. exact Ht.
  - apply in_flat_map in Hin as [t [Ht Hin]].
    pose proof Ht as Ht'. unfold smeter_inRange in Ht'. apply filter_In in Ht' as [_ Hr].
    apply andb_true_iff in Hr as [H1 H2]. qbool.
    unfold smeter_major in Hin. cbv zeta in Hin.
    destruct Hin as [Hin | [Hin | []]]; [ | discriminate Hin].
    injection Hin as <- <- _.
    split; [exact H1 | split; [exact H2 | ]]. discriminate.
Qed.

Lemma smeter_ticks_in_range_witness :
  let o := assign DEFAULTS
             {| p_dbMin := Some (-124); p_dbMax := Some (-13);
                p_noiseFloor := None; p_ballistics := None; p_attackTime := None;
                p_releaseTime := None; p_label := None; p_brand := None;
                p_onClip := None; p_onClipRelease := None;
                p_clipThreshold := Some (-73); p_autoRange := None;
                p_autoRangeWindow := None; p_autoRangeMargin := None;
                p_showPeak := None; p_peakAttackTime := None;
                p_peakHoldTime := None; p_peakDecayTime := None;
                p_scalePreset := Some (Some "smeter"%string) |} in
  In (TickLine (-124) false Black) (buildSmeterScale o)
  /\ (dbMin o <= -124 /\ -124 <= dbMax o
      /\ (false = false -> forall t, In t (smeter_inRange o) -> ~ inject_Z (fst t) == -124)).
Proof.
  cbv zeta. split; [vm_compute; auto 20 | ].
  apply (smeter_ticks_in_range _ _ false Black). vm_compute. auto 20.
Defined.

(** ** Agreement with the earlier component *)

(** X19: with auto-range off, [setValue] of the current component sets the
    same target as [setValue] of the earlier [src/www/VUMeter.js], changes
    nothing else, and emits nothing. *)
Theorem setValue_agrees_with_www (m : Meter) (db now : Q)
  (HA : autoRange (m_options m) = false) :
  setValue m db now = (Www.setValue m db, []).
Proof. unfold setValue. rewrite HA. reflexivity. Qed.

Lemma setValue_agrees_with_www_witness :
  autoRange (m_options (construct no_options)) = false
  /\ setValue (construct no_options) (-7) 0 = (Www.setValue (construct no_options) (-7), []).
Proof.
  split; [reflexivity | ].
  apply setValue_agrees_with_www. reflexivity.
Defined.

(** X20: with auto-range off, no peak needle and the clip threshold at
    0 dB, a frame of the current component is the frame of the earlier
    [src/www/VUMeter.js]: same state, same clip events. *)
Theorem animate_agrees_with_www (Math_exp : Q -> Q) (m : Meter) (timestamp now : Q)
  (HA : autoRange (m_options m) = false)
  (HP : showPeak (m_options m) && hasPeakNeedle m = false)
  (HT : clipThreshold (m_options m) = 0) :
  animate Math_exp m timestamp now = Www.animate Math_exp m timestamp.
Proof.
  destruct m as [o i1 i2 tg cu cl lt rs a1 a2 l1 l2 p1 p2 p3 p4 hn].
  cbn [m_options hasPeakNeedle] in HA, HP, HT.
  unfold animate, Www.animate, contract, updateClipState, Www.updateClipState,
    ballistics_step, peak_step.
  destruct lt as [t | ];
  cbn -[Qplus Qminus Qmult Qdiv Qopp Qabs js_min js_max Qlt_bool Qle_bool];
  rewrite HA; cbn -[Qplus Qminus Qmult Qdiv Qopp Qabs js_min js_max Qlt_bool Qle_bool];
  rewrite HT;
  destruct (Bool.eqb _ _); cbn -[Qplus Qminus Qmult Qdiv Qopp Qabs js_min js_max Qlt_bool Qle_bool];
  rewrite HP; reflexivity.
Qed.

Lemma animate_agrees_with_www_witness :
  let m := set_targetDb (construct no_options) 2 in
  autoRange (m_options m) = false
  /\ showPeak (m_options m) && hasPeakNeedle m = false
  /\ clipThreshold (m_options m) = 0
  /\ animate exp_approx m 16 16 = Www.animate exp_approx m 16.
Proof.
  cbv zeta. split; [reflexivity | split; [reflexivity | split; [reflexivity | ]]].
  apply animate_agrees_with_www; reflexivity.
Defined.

(** ** Options, ranges and the contraction order *)

Lemma clamp_fixed (lo hi y : Q) : lo <= y -> y <= hi -> js_max lo (js_min hi y) == y.
Proof.
  intros H1 H2. unfold js_min, js_max.
  destruct (Qle_bool hi y) eqn:E; qbool.
  - destruct (Qle_bool hi lo) eqn:E'; qbool; lra.
  - destruct (Qle_bool y lo) eqn:E'; qbool; lra.
Qed.

(** X21: [setRange(min, max)] with [min <= max] is idempotent: repeating
    the call with the same bounds leaves the bounds and rebuild marks as
    they are and moves neither the target nor the current value. *)
Theorem setRange_idempotent (m : Meter) (lo hi : Q) (H : lo <= hi) :
  let m1 := fst (setRange m lo hi) in
  let m2 := fst (setRange m1 lo hi) in
  m_options m2 = m_options m1
  /\ targetDb m2 == targetDb m1 /\ currentDb m2 == currentDb m1
  /\ lastRebuiltDbMin m2 = lastRebuiltDbMin m1 /\ lastRebuiltDbMax m2 = lastRebuiltDbMax m1.
Proof.
  cbv zeta.
  destruct (clamp_within lo hi (targetDb m) H) as [T1 T2].
  destruct (clamp_within lo hi (currentDb m) H) as [C1 C2].
  split; [reflexivity | ].
  split; [cbn; apply clamp_fixed; assumption | ].
  split; [cbn; apply clamp_fixed; assumption | ].
  split; reflexivity.
Qed.

Lemma setRange_idempotent_witness :
  let m := set_targetDb (construct no_options) (-25) in
  -10 <= 0
  /\ (let m1 := fst (setRange m (-10) 0) in
      let m2 := fst (setRange m1 (-10) 0) in
      m_options m2 = m_options m1
      /\ targetDb m2 == targetDb m1 /\ currentDb m2 == currentDb m1
      /\ lastRebuiltDbMin m2 = lastRebuiltDbMin m1 /\ lastRebuiltDbMax m2 = lastRebuiltDbMax m1).
Proof.
  cbv zeta. split; [discriminate | ].
  apply setRange_idempotent. discriminate.
Defined.

Lemma autoRangeTrack_targets (m : Meter) (db now newMin newMax : Q) :
  desired_bounds m db now = Some (newMin, newMax) ->
  autoRangeTargetMin (fst (autoRangeTrack m db now)) = newMin
  /\ autoRangeTargetMax (fst (autoRangeTrack m db now)) = newMax.
Proof.
  intro D. unfold autoRangeTrack. rewrite D.
  destruct (Qlt_bool newMin _), (Qlt_bool _ newMax); split; reflexivity.
Qed.

Lemma desired_bounds_ordered (m : Meter) (db now newMin newMax : Q)
  (Hm : 0 <= autoRangeMargin (m_options m)) :
  desired_bounds m db now = Some (newMin, newMax) -> newMin <= newMax.
Proof.
  unfold desired_bounds. destruct (map s_db (window_samples m db now)) as [ | d ds];
    [discriminate | ].
  intro D. injection D as <- <-.
  pose proof (list_min_le d ds d (in_eq d ds)).
  pose proof (list_max_ge d ds d (in_eq d ds)).
  lra.
Qed.

(** X22: with auto-range on, a non-negative window and a non-negative
    margin, after [setValue] the contraction targets are ordered and lie
    within the displayed bounds: [displayMin <= targetMin <= targetMax <=
    displayMax]. *)
Theorem setValue_targets_within_bounds (m : Meter) (db now : Q)
  (HA : autoRange (m_options m) = true)
  (Hw : 0 <= autoRangeWindow (m_options m))
  (Hm : 0 <= autoRangeMargin (m_options m)) :
  let m' := fst (setValue m db now) in
  dbMin (m_options m') <= autoRangeTargetMin m'
  /\ autoRangeTargetMin m' <= autoRangeTargetMax m'
  /\ autoRangeTargetMax m' <= dbMax (m_options m').
Proof.
  cbv zeta.
  pose proof (setValue_options m db now) as SO. rewrite HA in SO.
  assert (ST : autoRangeTargetMin (fst (setValue m db now))
               = autoRangeTargetMin (fst (autoRangeTrack m db now))
               /\ autoRangeTargetMax (fst (setValue m db now))
                  = autoRangeTargetMax (fst (autoRangeTrack m db now))).
  { unfold setValue. rewrite HA. destruct (autoRangeTrack m db now). split; reflexivity. }
  destruct ST as [ST1 ST2]. rewrite SO, ST1, ST2.
  destruct (desired_bounds m db now) as [[a b] | ] eqn:D.
  - destruct (autoRangeTrack_targets m db now a b D) as [-> ->].
    pose proof (desired_bounds_ordered m db now a b Hm D) as Hab.
    destruct (autoRangeTrack_options m db now) as (_ & _ & O3 & O4 & O5).
    destruct (O5 a b D) as [E1 E2].
    cbv zeta in *.
    set (o := m_options m) in *.
    set (o' := m_options (fst (autoRangeTrack m db now))) in *.
    split; [ | split; [exact Hab | ]].
    + destruct (Qlt_le_dec a (dbMin o)) as [L | L];
        [rewrite (E1 L); apply Qle_refl | lra].
    + destruct (Qlt_le_dec (dbMax o) b) as [L | L];
        [rewrite (E2 L); apply Qle_refl | lra].
  - exfalso. pose proof (window_has_sample m db now Hw) as W.
    unfold desired_bounds in D.
    destruct (window_samples m db now); [destruct W | discriminate D].
Qed.

Lemma setValue_targets_within_bounds_witness :
  let m := construct autorange_options in
  autoRange (m_options m) = true
  /\ 0 <= autoRangeWindow (m_options m)
  /\ 0 <= autoRangeMargin (m_options m)
  /\ (let m' := fst (setValue m (-35) 1000) in
      dbMin (m_options m') <= autoRangeTargetMin m'
      /\ autoRangeTargetMin m' <= autoRangeTargetMax m'
      /\ autoRangeTargetMax m' <= dbMax (m_options m')).
Proof.
  cbv zeta.
  split; [reflexivity | split; [vm_compute; discriminate | split; [vm_compute; discriminate | ]]].
  apply setValue_targets_within_bounds;
    [reflexivity | vm_compute; discriminate | vm_compute; discriminate].
Defined.

(** X23: a frame keeps the displayed bounds ordered: when [displayMin <=
    displayMax], the contraction targets are ordered and each bound is on
    the right side of the opposite target, the bounds after the frame are
    still ordered and on the same sides of the targets. *)
Theorem animate_bounds_stay_ordered (Math_exp : Q -> Q) (m : Meter) (timestamp now : Q)
  (HA : autoRange (m_options m) = true)
  (Ht : 0 <= timestamp - pick (lastTime m) timestamp)
  (H1 : dbMin (m_options m) <= dbMax (m_options m))
  (H2 : autoRangeTargetMin m <= autoRangeTargetMax m)
  (H3 : dbMin (m_options m) <= autoRangeTargetMax m)
  (H4 : autoRangeTargetMin m <= dbMax (m_options m)) :
  let o' := m_options (fst (animate Math_exp m timestamp now)) in
  dbMin o' <= dbMax o' /\ dbMin o' <= autoRangeTargetMax m
  /\ autoRangeTargetMin m <= dbMax o'.
Proof.
  cbv zeta. rewrite animate_options.
  set (e := timestamp - pick (lastTime m) timestamp) in *.
  set (c := js_min e 100).
  assert (Hc0 : 0 <= c).
  { subst c. destruct (js_min_cases e 100) as [H | H]; rewrite H; [exact Ht | discriminate]. }
  destruct (contract_bounds (set_lastTime m (Some timestamp)) c HA Hc0)
    as (_ & A2 & A3 & _ & A5 & A6).
  cbn [m_options autoRangeTargetMin autoRangeTargetMax set_lastTime] in *.
  set (o' := m_options (fst (contract (set_lastTime m (Some timestamp)) c))) in *.
  set (o := m_options m) in *.
  destruct (Qlt_le_dec (dbMin o) (autoRangeTargetMin m)) as [L1 | L1];
  destruct (Qlt_le_dec (autoRangeTargetMax m) (dbMax o)) as [L2 | L2];
  [ specialize (A2 L1); specialize (A5 L2)
  | specialize (A2 L1); specialize (A6 L2); rewrite A6
  | specialize (A3 L1); specialize (A5 L2); rewrite A3
  | specialize (A3 L1); specialize (A6 L2); rewrite A3, A6 ];
  lra.
Qed.

Lemma animate_bounds_stay_ordered_witness :
  let m := set_autoRangeTargets
             (set_lastTime (construct autorange_options) (Some 1000)) (-15) 0 in
  autoRange (m_options m) = true
  /\ 0 <= 1016 - pick (lastTime m) 1016
  /\ dbMin (m_options m) <= dbMax (m_options m)
  /\ autoRangeTargetMin m <= autoRangeTargetMax m
  /\ dbMin (m_options m) <= autoRangeTargetMax m
  /\ autoRangeTargetMin m <= dbMax (m_options m)
  /\ (let o' := m_options (fst (animate exp_approx m 1016 1016)) in
      dbMin o' <= dbMax o' /\ dbMin o' <= autoRangeTargetMax m
      /\ autoRangeTargetMin m <= dbMax o').
Proof.
  cbv zeta.
  split; [reflexivity | ].
  split; [vm_compute; discriminate | ].
  split; [vm_compute; discriminate | ].
  split; [vm_compute; discriminate | ].
  split; [vm_compute; discriminate | ].
  split; [vm_compute; discriminate | ].
  apply animate_bounds_stay_ordered; [reflexivity | vm_compute; discriminate ..].
Defined.
